(** * Replay debugger server (scripts/opentitan/gdbreplay.py)

    A shallow embedding of the replay engine of [gdbreplay.py]: the memory
    controller, the virtual CPU with its execution cursor and hardware
    breakpoints, and the GDB remote protocol front end (framing, dispatch
    and command handlers), followed by the properties of the specification
    that concern them.

    Python integers are [Z], byte strings and text are [string] (a list of
    8-bit characters), memory blobs are [list byte].  Exceptions are values
    of [exn]; a method that may raise returns a [result], and a method that
    mutates its object returns the new object next to the result, so that
    the state left behind by a raising call is visible. *)

From Stdlib Require Import ZArith List String Ascii Bool Lia.
From Stdlib Require Import Strings.Byte.
From Stdlib Require Import Sorting.Permutation Sorting.Sorted.
Import ListNotations.

Local Open Scope string_scope.
Local Open Scope list_scope.
Local Open Scope Z_scope.

(* ------------------------------------------------------------------ *)
(** ** Python values and exceptions *)

(** The exceptions raised by the code or by the built-ins it calls.  The
    handlers of the source select on the class only ([except ValueError],
    [except RuntimeError], [except IndexError]); the message is kept for
    the two [RuntimeError]s of [QEMUVCPU.step], which the specification
    names EndOfStream and StartOfStream. *)
Inductive exn : Type :=
| RuntimeError (msg : string)
| ValueError (msg : string)
| IndexError (msg : string)
| KeyError
| OverflowError
| UnicodeDecodeError
| AttributeError.

Inductive result (A : Type) : Type :=
| Ok (a : A)
| Raise (e : exn).

Arguments Ok {A} a.
Arguments Raise {A} e.

Definition EndOfStream : exn := RuntimeError "Reached end of exec stream".
Definition StartOfStream : exn := RuntimeError "Reached start of exec stream".
Definition Duplicate : exn := ValueError "Duplicate breakpoint".
Definition Missing : exn := ValueError "Non-existent breakpoint".
Definition NotMapped : exn := IndexError "Invalid memory address".

Definition is_RuntimeError (e : exn) : bool :=
  match e with RuntimeError _ => true | _ => false end.
Definition is_ValueError (e : exn) : bool :=
  match e with ValueError _ => true | _ => false end.
Definition is_IndexError (e : exn) : bool :=
  match e with IndexError _ => true | _ => false end.

Definition bind {A B : Type} (r : result A) (k : A -> result B) : result B :=
  match r with
  | Ok a => k a
  | Raise e => Raise e
  end.

Notation "x <- c ;; k" := (bind c (fun x => k))
  (at level 100, c at next level, right associativity).

(** [len(l)] as a Python integer. *)
Definition len {A : Type} (l : list A) : Z := Z.of_nat (List.length l).

(** [l[i]]: a negative index counts from the end, an index out of range
    raises [IndexError]. *)
Definition py_index {A : Type} (l : list A) (i : Z) : result A :=
  let j := if i <? 0 then i + len l else i in
  if (j <? 0) || (len l <=? j) then Raise (IndexError "list index out of range")
  else match nth_error l (Z.to_nat j) with
       | Some a => Ok a
       | None => Raise (IndexError "list index out of range")
       end.

(** A slice bound as Python normalises it: a negative bound counts from
    the end, and the result is clamped to [0, len]. *)
Definition slice_bound (n : Z) (i : Z) : Z :=
  let j := if i <? 0 then i + n else i in
  Z.max 0 (Z.min n j).

(** [l[a:b]]. *)
Definition py_slice {A : Type} (l : list A) (a b : Z) : list A :=
  let lo := slice_bound (len l) a in
  let hi := slice_bound (len l) b in
  firstn (Z.to_nat (hi - lo)) (skipn (Z.to_nat lo) l).

(** [range(start, stop)], the only form of range the code builds. *)
Record range : Type := mkRange { start : Z; stop : Z }.

Definition range_len (r : range) : Z := Z.max 0 (stop r - start r).

(** [x in r]. *)
Definition in_range (x : Z) (r : range) : bool :=
  (start r <=? x) && (x <? stop r).

(** [r1 == r2]: Python compares ranges as the sequences they denote, so
    two ranges are equal when they have the same length and, unless they
    are empty, the same first element. *)
Definition range_eqb (r1 r2 : range) : bool :=
  if negb (range_len r1 =? range_len r2) then false
  else if range_len r1 =? 0 then true
  else start r1 =? start r2.

(** [int.from_bytes(bs, 'little')]. *)
Fixpoint int_from_bytes_little (bs : list byte) : Z :=
  match bs with
  | [] => 0
  | b :: rest => Z.of_N (Byte.to_N b) + 256 * int_from_bytes_little rest
  end.

(* ------------------------------------------------------------------ *)
(** ** Memory controller *)

Module QEMUMemoryController.

(** [_banks]: a dict from address range to blob; a Python dict keeps
    its items in insertion order, which is the order [read] scans. *)
Definition t : Type := list (range * list byte).

Definition init : t := [].

(** [d[k] = v] on a dict kept as an association list: an existing key
    (compared with [==]) keeps its place and takes the new value. *)
Fixpoint dict_set (banks : t) (k : range) (v : list byte) : t :=
  match banks with
  | [] => [(k, v)]
  | (k', v') :: rest =>
      if range_eqb k' k then (k', v) :: rest
      else (k', v') :: dict_set rest k v
  end.

Definition add_memory (addr : Z) (blob : list byte) (banks : t) : t :=
  let length := len blob in
  let rng := mkRange addr (addr + length) in
  dict_set banks rng blob.

Fixpoint read (banks : t) (addr : Z) (length : Z) : result (list byte) :=
  match banks with
  | [] => Raise NotMapped
  | (rng, data) :: rest =>
      if negb (in_range addr rng) then read rest addr length
      else
        let offset := addr - start rng in
        Ok (py_slice data offset (offset + length))
  end.

End QEMUMemoryController.

(* ------------------------------------------------------------------ *)
(** ** Virtual CPU *)

Module QEMUVCPU.

Definition PC_XPOS : Z := 32.

(** The fields of a vCPU.  [_memctrl] is a reference to the controller
    shared by all vCPUs and owned by the server: the methods that read
    memory take the banks as an argument. *)
Record t : Type := mk {
  _seq : list (Z * string);
  _regs : list (option Z);
  _xpos : Z;
  _hwbreaks : list range
}.

Definition init : t := mk [] (repeat None 33) 0 [].

Definition set_xpos (x : Z) (v : t) : t :=
  mk (_seq v) (_regs v) x (_hwbreaks v).

Definition set_hwbreaks (h : list range) (v : t) : t :=
  mk (_seq v) (_regs v) (_xpos v) h.

Definition set_regs (r : list (option Z)) (v : t) : t :=
  mk (_seq v) r (_xpos v) (_hwbreaks v).

Definition record (pc : Z) (func : string) (v : t) : t :=
  mk (_seq v ++ [(pc, func)]) (_regs v) (_xpos v) (_hwbreaks v).

Definition reset (v : t) : t := set_xpos 0 v.

(** [step]: the forward branch increments the cursor before it tests
    it, so the object returned with a raised EndOfStream carries the
    incremented cursor. *)
Definition step (back : bool) (v : t) : result unit * t :=
  if negb back then
    let v' := set_xpos (_xpos v + 1) v in
    if len (_seq v') <=? _xpos v' then (Raise EndOfStream, v')
    else (Ok tt, v')
  else
    if 0 <? _xpos v then (Ok tt, set_xpos (_xpos v - 1) v)
    else (Raise StartOfStream, v).

Definition instruction_count (v : t) : Z := len (_seq v).

Definition _get_instruction_length
    (mem : QEMUMemoryController.t) (pc : Z) : result Z :=
  match QEMUMemoryController.read mem pc 4 with
  | Raise e => if is_IndexError e then Ok 4 else Raise e
  | Ok bs =>
      let instr := int_from_bytes_little bs in
      let length := if negb (Z.land instr 3 =? 0) then 4 else 2 in
      Ok length
  end.

Definition pc (mem : QEMUMemoryController.t) (v : t) : result Z :=
  if _xpos v <? len (_seq v) then
    e <- py_index (_seq v) (_xpos v) ;; Ok (fst e)
  else
    e <- py_index (_seq v) (-1) ;;
    let last_pc := fst e in
    l <- _get_instruction_length mem last_pc ;;
    Ok (last_pc + l).

Definition instruction_length
    (mem : QEMUMemoryController.t) (v : t) : result Z :=
  p <- pc mem v ;; _get_instruction_length mem p.

(** [regs] stores the current PC in the last slot of [_regs] and
    returns the list. *)
Definition regs (mem : QEMUMemoryController.t) (v : t)
  : result (list (option Z)) * t :=
  match pc mem v with
  | Raise e => (Raise e, v)
  | Ok p =>
      let r := firstn (List.length (_regs v) - 1)%nat (_regs v) ++ [Some p] in
      (Ok r, set_regs r v)
  end.

(** The two loops of [_move_to].  Each returns the position where
    [pc] was found, [None] when the loop ends without finding it, or
    the exception of an index out of range. *)
Fixpoint move_fwd (fuel : nat) (seq : list (Z * string)) (pc pos : Z)
  : result (option Z) :=
  match fuel with
  | O => Ok None
  | S fuel' =>
      if pos <? len seq then
        e <- py_index seq pos ;;
        if fst e =? pc then Ok (Some pos)
        else move_fwd fuel' seq pc (pos + 1)
      else Ok None
  end.

Fixpoint move_bwd (fuel : nat) (seq : list (Z * string)) (pc pos : Z)
  : result (option Z) :=
  match fuel with
  | O => Ok None
  | S fuel' =>
      if 0 <=? pos then
        e <- py_index seq pos ;;
        if fst e =? pc then Ok (Some pos)
        else move_bwd fuel' seq pc (pos - 1)
      else Ok None
  end.

(** The number of iterations the loops of [_move_to] can make from
    position [pos]: the forward loop stops at [len seq], the backward
    loop below 0. *)
Definition move_fuel (forward : bool) (seq : list (Z * string)) (pos : Z)
  : nat :=
  if forward then Z.to_nat (len seq - pos) else Z.to_nat (pos + 1).

Definition _move_to (pc : Z) (forward : bool) (v : t) : result unit * t :=
  let pos := _xpos v in
  let fuel := move_fuel forward (_seq v) pos in
  let found :=
    if forward then move_fwd fuel (_seq v) pc pos
    else move_bwd fuel (_seq v) pc pos in
  match found with
  | Raise e => (Raise e, v)
  | Ok (Some p) => (Ok tt, set_xpos p v)
  | Ok None => (Raise (ValueError "No such address"), v)
  end.

Definition opt_Z_eqb (a : option Z) (b : Z) : bool :=
  match a with
  | Some x => x =? b
  | None => false
  end.

(** The [while True] loop of [cont].  [None] means that the fuel ran
    out before the loop returned. *)
Fixpoint cont_loop (fuel : nat) (mem : QEMUMemoryController.t)
    (back : bool) (last_pc : option Z) (v : t)
  : option (result bool * t) :=
  match fuel with
  | O => None
  | S fuel' =>
      match step back v with
      | (Raise e, v1) =>
          if is_RuntimeError e then Some (Ok false, v1)
          else Some (Raise e, v1)
      | (Ok _, v1) =>
          match instruction_length mem v1 with
          | Raise e => Some (Raise e, v1)
          | Ok _ =>
              match pc mem v1 with
              | Raise e => Some (Raise e, v1)
              | Ok p =>
                  if opt_Z_eqb last_pc p then
                    cont_loop fuel' mem back last_pc v1
                  else if existsb (in_range p) (_hwbreaks v1) then
                    Some (Ok true, v1)
                  else cont_loop fuel' mem back (Some p) v1
              end
          end
      end
  end.

(** Enough fuel for the loop of [cont] from cursor [x]: every
    iteration but the last moves the cursor by one towards the end it
    travels to. *)
Definition cont_fuel (back : bool) (v : t) : nat :=
  if back then S (Z.to_nat (_xpos v))
  else S (Z.to_nat (len (_seq v) - _xpos v)).

Definition cont (mem : QEMUMemoryController.t) (back : bool)
    (addr : option Z) (v : t) : option (result bool * t) :=
  let moved :=
    match addr with
    | None => (Ok tt, v)
    | Some a =>
        match _move_to a (negb back) v with
        | (Raise e, v1) =>
            if is_ValueError e then (Ok tt, set_xpos (len (_seq v1)) v1)
            else (Raise e, v1)
        | ok => ok
        end
    end in
  match moved with
  | (Raise e, v1) => Some (Raise e, v1)
  | (Ok _, v1) => cont_loop (cont_fuel back v1) mem back None v1
  end.

Definition add_hw_break (addr length : Z) (v : t) : result unit * t :=
  let rng := mkRange addr (addr + length) in
  if existsb (range_eqb rng) (_hwbreaks v) then (Raise Duplicate, v)
  else (Ok tt, set_hwbreaks (_hwbreaks v ++ [rng]) v).

(** [list.remove(x)]: drops the first element equal to [x]; [None]
    when there is none. *)
Fixpoint list_remove (x : range) (l : list range) : option (list range) :=
  match l with
  | [] => None
  | y :: rest =>
      if range_eqb y x then Some rest
      else match list_remove x rest with
           | Some rest' => Some (y :: rest')
           | None => None
           end
  end.

Definition del_hw_break (addr length : Z) (v : t) : result unit * t :=
  let rng := mkRange addr (addr + length) in
  match list_remove rng (_hwbreaks v) with
  | Some h => (Ok tt, set_hwbreaks h v)
  | None => (Raise Missing, v)
  end.

End QEMUVCPU.

(* ------------------------------------------------------------------ *)
(** ** Python text and byte strings *)

(** Byte strings and decoded text are both [string]: [decode] checks that
    the bytes are valid UTF-8 and keeps them as they are, which is exact
    for every test the code makes on text (ASCII separators, ASCII
    handler names, an ASCII haystack). *)

Definition chars (s : string) : list ascii := list_ascii_of_string s.
Definition str (l : list ascii) : string := string_of_list_ascii l.
Definition code (c : ascii) : Z := Z.of_N (N_of_ascii c).
Definition chr (n : Z) : ascii := ascii_of_N (Z.to_N n).

Definition slen (s : string) : Z := Z.of_nat (String.length s).

(** [s[a:b]] on a string. *)
Definition str_slice (s : string) (a b : Z) : string :=
  str (py_slice (chars s) a b).

(** [s[a:]]. *)
Definition str_from (s : string) (a : Z) : string :=
  str_slice s a (slen s).

(** [sum(bs)] of a byte string. *)
Definition byte_sum (s : string) : Z :=
  fold_right (fun c acc => code c + acc) 0 (chars s).

(** [sub in s]: [sub] occurs in [s] as a contiguous substring. *)
Fixpoint py_in (sub s : string) : bool :=
  if String.prefix sub s then true
  else match s with
       | EmptyString => false
       | String _ rest => py_in sub rest
       end.

(** [s.find(c, start)] for a one-byte needle and [0 <= start]: the index
    of the first occurrence at or after [start], or -1. *)
Fixpoint find_at (c : ascii) (l : list ascii) (pos : Z) : Z :=
  match l with
  | [] => -1
  | x :: rest => if Ascii.eqb x c then pos else find_at c rest (pos + 1)
  end.

Definition py_find (c : ascii) (s : string) (start : Z) : Z :=
  let n := slice_bound (slen s) start in
  find_at c (skipn (Z.to_nat n) (chars s)) n.

(** [s.split(sep)] for a one-character separator: always at least one
    part, empty parts kept. *)
Fixpoint split_chars (sep : ascii) (l : list ascii) : list (list ascii) :=
  match l with
  | [] => [[]]
  | x :: rest =>
      if Ascii.eqb x sep then [] :: split_chars sep rest
      else match split_chars sep rest with
           | p :: ps => (x :: p) :: ps
           | [] => [[x]]
           end
  end.

Definition py_split (sep : ascii) (s : string) : list string :=
  map str (split_chars sep (chars s)).

(** [s.split(sep, 1)]: at most one split, at the first separator. *)
Fixpoint split1_chars (sep : ascii) (l : list ascii)
  : list ascii * option (list ascii) :=
  match l with
  | [] => ([], None)
  | x :: rest =>
      if Ascii.eqb x sep then ([], Some rest)
      else let (h, t) := split1_chars sep rest in (x :: h, t)
  end.

Definition py_split1 (sep : ascii) (s : string) : list string :=
  match split1_chars sep (chars s) with
  | (h, None) => [str h]
  | (h, Some t) => [str h; str t]
  end.

(** [sep.join(parts)]. *)
Fixpoint py_join (sep : string) (parts : list string) : string :=
  match parts with
  | [] => ""
  | [p] => p
  | p :: rest => String.append p (String.append sep (py_join sep rest))
  end.

Definition is_upper (c : ascii) : bool := (65 <=? code c) && (code c <=? 90).

(** [s.lower()], on the ASCII letters. *)
Definition lower_char (c : ascii) : ascii :=
  if is_upper c then chr (code c + 32) else c.

Definition py_lower (s : string) : string := str (map lower_char (chars s)).

Definition ascii_uppercase : string := "ABCDEFGHIJKLMNOPQRSTUVWXYZ".

(** Strict UTF-8 as Python's decoder checks it: no overlong form, no
    surrogate, nothing above U+10FFFF. *)
Definition is_cont (c : ascii) : bool := (128 <=? code c) && (code c <=? 191).

Fixpoint utf8_valid (fuel : nat) (l : list ascii) : bool :=
  match fuel with
  | O => match l with [] => true | _ => false end
  | S fuel' =>
      match l with
      | [] => true
      | b0 :: r0 =>
          let n := code b0 in
          if n <? 128 then utf8_valid fuel' r0
          else if (194 <=? n) && (n <=? 223) then
            match r0 with
            | b1 :: r1 => is_cont b1 && utf8_valid fuel' r1
            | _ => false
            end
          else if (224 <=? n) && (n <=? 239) then
            match r0 with
            | b1 :: b2 :: r2 =>
                let lo := if n =? 224 then 160 else 128 in
                let hi := if n =? 237 then 159 else 191 in
                (lo <=? code b1) && (code b1 <=? hi) && is_cont b2
                && utf8_valid fuel' r2
            | _ => false
            end
          else if (240 <=? n) && (n <=? 244) then
            match r0 with
            | b1 :: b2 :: b3 :: r3 =>
                let lo := if n =? 240 then 144 else 128 in
                let hi := if n =? 244 then 143 else 191 in
                (lo <=? code b1) && (code b1 <=? hi) && is_cont b2
                && is_cont b3 && utf8_valid fuel' r3
            | _ => false
            end
          else false
      end
  end.

(** [bs.decode()]. *)
Definition decode (bs : string) : result string :=
  if utf8_valid (String.length bs) (chars bs) then Ok bs
  else Raise UnicodeDecodeError.

(* ------------------------------------------------------------------ *)
(** ** Numbers as text *)

Definition digit_char (d : Z) : ascii :=
  if d <? 10 then chr (48 + d) else chr (87 + d).

(** The digits of a non-negative [n] in [base], least significant
    first. *)
Fixpoint digits_rev (base : Z) (fuel : nat) (n : Z) : list ascii :=
  match fuel with
  | O => []
  | S fuel' =>
      if n <? base then [digit_char n]
      else digit_char (n mod base) :: digits_rev base fuel' (n / base)
  end.

(** [f'{n:x}'] with [base = 16], [f'{n}'] with [base = 10]. *)
Definition format_int (base : Z) (n : Z) : string :=
  let a := Z.abs n in
  let ds := str (rev (digits_rev base (S (Z.to_nat (Z.log2 a))) a)) in
  if n <? 0 then String "-" ds else ds.

(** Padding with zeros on the left up to [width] characters, as the
    [0<width>] of a format specification does for a non-negative
    number. *)
Definition zero_pad (width : nat) (s : string) : string :=
  String.append (str (repeat "0"%char (width - String.length s))) s.

(** [f'{n:02x}']. *)
Definition format_02x (n : Z) : string := zero_pad 2 (format_int 16 n).

Definition byte_of_Z (z : Z) : byte :=
  match Byte.of_N (Z.to_N (z mod 256)) with
  | Some b => b
  | None => x00
  end.

Fixpoint le_bytes (count : nat) (n : Z) : list byte :=
  match count with
  | O => []
  | S count' => byte_of_Z n :: le_bytes count' (n / 256)
  end.

Definition negative_length : exn :=
  ValueError "length argument must be non-negative".

(** [n.to_bytes(length, 'little')]: unsigned.  A negative [length] is
    refused first, with a [ValueError]; then [OverflowError] when [n]
    is negative or does not fit. *)
Definition to_bytes (n : Z) (length : Z) : result (list byte) :=
  if length <? 0 then Raise negative_length
  else if (n <? 0) || (256 ^ length <=? n) then Raise OverflowError
  else Ok (le_bytes (Z.to_nat length) n).

(** [hexlify(bs).decode()]. *)
Fixpoint hexlify (bs : list byte) : string :=
  match bs with
  | [] => ""
  | b :: rest =>
      String.append (format_02x (Z.of_N (Byte.to_N b))) (hexlify rest)
  end.

(** *** [int(text, base)] *)

(** The value of a character as a digit; 37 when it is none. *)
Definition digit_value (c : ascii) : Z :=
  let n := code c in
  if (48 <=? n) && (n <=? 57) then n - 48
  else if (97 <=? n) && (n <=? 122) then n - 87
  else if (65 <=? n) && (n <=? 90) then n - 55
  else 37.

(** White space that [int] strips from the ASCII characters it parses,
    in a byte string as in text: space and 0x09 to 0x0d. *)
Definition is_space_bytes (c : ascii) : bool :=
  (code c =? 32) || ((9 <=? code c) && (code c <=? 13)).

(** White space among the ASCII characters of text, as [\s] of [re]
    and [str.isspace] see it: the separators 0x1c to 0x1f count too. *)
Definition is_space_str (c : ascii) : bool :=
  is_space_bytes c || ((28 <=? code c) && (code c <=? 31)).

Fixpoint drop_while (p : ascii -> bool) (l : list ascii) : list ascii :=
  match l with
  | [] => []
  | c :: rest => if p c then drop_while p rest else l
  end.

(** The digits of a literal: single underscores may separate digits.
    Returns the value, the number of digits and what follows, or [None]
    for a doubled or trailing underscore. *)
Fixpoint scan_digits (base : Z) (l : list ascii) (prev_us : bool)
    (acc : Z) (n : nat) : option (Z * nat * list ascii) :=
  match l with
  | c :: rest =>
      if Ascii.eqb c "_"%char then
        if prev_us then None else scan_digits base rest true acc n
      else if digit_value c <? base then
        scan_digits base rest false (acc * base + digit_value c) (S n)
      else if prev_us then None else Some (acc, n, l)
  | [] => if prev_us then None else Some (acc, n, l)
  end.

Definition invalid_literal : exn := ValueError "invalid literal for int()".

(** The parser of [int(s, base)] for [base] 10 or 16, on the ASCII
    characters that [int] hands to it; [space] is the white space it
    strips. *)
Definition py_int (space : ascii -> bool) (base : Z) (s : string) : result Z :=
  let l0 := drop_while space (chars s) in
  let (sign, l1) :=
    match l0 with
    | c :: rest =>
        if Ascii.eqb c "-"%char then (-1, rest)
        else if Ascii.eqb c "+"%char then (1, rest)
        else (1, l0)
    | [] => (1, l0)
    end in
  let l2 :=
    match l1 with
    | z :: x :: rest =>
        if (base =? 16) && Ascii.eqb z "0"%char
           && (Ascii.eqb x "x"%char || Ascii.eqb x "X"%char) then
          match rest with
          | u :: rest' => if Ascii.eqb u "_"%char then rest' else rest
          | [] => rest
          end
        else l1
    | _ => l1
    end in
  match l2 with
  | c :: _ =>
      if Ascii.eqb c "_"%char then Raise invalid_literal
      else
        match scan_digits base l2 false 0 O with
        | None => Raise invalid_literal
        | Some (_, O, _) => Raise invalid_literal
        | Some (v, _, rest) =>
            match drop_while space rest with
            | [] => Ok (sign * v)
            | _ => Raise invalid_literal
            end
        end
  | [] => Raise invalid_literal
  end.

(** [int(bs, base)] on a byte string. *)
Definition int_bytes (base : Z) (s : string) : result Z :=
  py_int is_space_bytes base s.

(** *** [int(text, base)] on text *)

Definition is_ascii_text (s : string) : bool :=
  forallb (fun c => code c <? 128) (chars s).

(** The code points of text, read from its UTF-8 bytes (which
    [decode] has checked). *)
Fixpoint code_points (l : list ascii) : list Z :=
  match l with
  | [] => []
  | b0 :: r0 =>
      let n := code b0 in
      if n <? 128 then n :: code_points r0
      else if n <? 224 then
        match r0 with
        | b1 :: r1 => ((n - 192) * 64 + (code b1 - 128)) :: code_points r1
        | [] => []
        end
      else if n <? 240 then
        match r0 with
        | b1 :: b2 :: r2 =>
            ((n - 224) * 4096 + (code b1 - 128) * 64 + (code b2 - 128))
              :: code_points r2
        | _ => []
        end
      else
        match r0 with
        | b1 :: b2 :: b3 :: r3 =>
            ((n - 240) * 262144 + (code b1 - 128) * 4096
             + (code b2 - 128) * 64 + (code b3 - 128)) :: code_points r3
        | _ => []
        end
  end.

(** The white space of Unicode above ASCII. *)
Definition unicode_space (cp : Z) : bool :=
  existsb (fun r => (fst r <=? cp) && (cp <=? snd r))
    [(133, 133); (160, 160); (5760, 5760); (8192, 8202); (8232, 8233);
     (8239, 8239); (8287, 8287); (12288, 12288)].

(** The digit zero of every run of ten decimal digits of Unicode 14.0,
    the database of CPython 3.11. *)
Definition decimal_zeros : list Z :=
  [48; 1632; 1776; 1984; 2406; 2534; 2662; 2790; 2918; 3046; 3174; 3302;
   3430; 3558; 3664; 3792; 3872; 4160; 4240; 6112; 6160; 6470; 6608; 6784;
   6800; 6992; 7088; 7232; 7248; 42528; 43216; 43264; 43472; 43504; 43600;
   44016; 65296; 66720; 68912; 69734; 69872; 69942; 70096; 70384; 70736;
   70864; 71248; 71360; 71472; 71904; 72016; 72784; 73040; 73120; 92768;
   92864; 93008; 120782; 120792; 120802; 120812; 120822; 123200; 123632;
   125264; 130032].

(** The value of a code point as a decimal digit. *)
Definition unicode_decimal (cp : Z) : option Z :=
  match find (fun z => (z <=? cp) && (cp <? z + 10)) decimal_zeros with
  | Some z => Some (cp - z)
  | None => None
  end.

(** What [int] makes of text that is not ASCII before it parses it: a
    code point below 127 is kept, white space becomes a space, a
    decimal digit its ASCII digit, and anything else a question mark
    that ends the text. *)
Fixpoint to_ascii_digits (cps : list Z) : list ascii :=
  match cps with
  | [] => []
  | cp :: rest =>
      if cp <? 127 then chr cp :: to_ascii_digits rest
      else if unicode_space cp then " "%char :: to_ascii_digits rest
      else match unicode_decimal cp with
           | Some d => chr (48 + d) :: to_ascii_digits rest
           | None => ["?"%char]
           end
  end.

(** [int(s, base)] on text: ASCII text is parsed as it is. *)
Definition int_str (base : Z) (s : string) : result Z :=
  if is_ascii_text s then py_int is_space_bytes base s
  else py_int is_space_bytes base (str (to_ascii_digits (code_points (chars s)))).

(* ------------------------------------------------------------------ *)
(** ** Trace lines *)

(** A hand-written matcher for [TCRE],
    [^Trace\s(\d+):\s0x[0-9a-f]+\s\[[0-9a-f]+/([0-9a-f]+)/[0-9a-f]+/[0-9a-f]+\]\s(\w+)\s*$].
    Every repeated class is followed by a character outside the class,
    so the greedy reading below is the only way the expression can
    match.  The classes [\d], [\w] and [\s] are given on ASCII
    lines, the form of the logs that QEMU writes: the matcher is the
    expression on a line for which [is_ascii_text] holds, and the
    properties of [load] are stated for such lines. *)
Module TCRE.

Definition is_digit (c : ascii) : bool := (48 <=? code c) && (code c <=? 57).

Definition is_hex (c : ascii) : bool :=
  is_digit c || ((97 <=? code c) && (code c <=? 102)).

Definition is_word (c : ascii) : bool :=
  is_digit c || is_upper c || ((97 <=? code c) && (code c <=? 122))
  || (code c =? 95).

Fixpoint take_while (p : ascii -> bool) (l : list ascii)
  : list ascii * list ascii :=
  match l with
  | [] => ([], [])
  | c :: rest =>
      if p c then let (h, t) := take_while p rest in (c :: h, t)
      else ([], l)
  end.

(** One or more characters of a class. *)
Definition many1 (p : ascii -> bool) (l : list ascii)
  : option (list ascii * list ascii) :=
  match take_while p l with
  | ([], _) => None
  | (h, t) => Some (h, t)
  end.

Fixpoint lit (s : list ascii) (l : list ascii) : option (list ascii) :=
  match s, l with
  | [], _ => Some l
  | c :: s', x :: l' => if Ascii.eqb c x then lit s' l' else None
  | _ :: _, [] => None
  end.

Definition one (p : ascii -> bool) (l : list ascii) : option (list ascii) :=
  match l with
  | c :: rest => if p c then Some rest else None
  | [] => None
  end.

Definition obind {A B : Type} (o : option A) (k : A -> option B) : option B :=
  match o with
  | Some a => k a
  | None => None
  end.

(** [TCRE.match(line).groups()], or [None] when the line does not
    match. *)
Definition groups (line : string) : option (string * string * string) :=
  obind (lit (chars "Trace") (chars line)) (fun l =>
  obind (one is_space_str l) (fun l =>
  obind (many1 is_digit l) (fun '(scpu, l) =>
  obind (lit (chars ":") l) (fun l =>
  obind (one is_space_str l) (fun l =>
  obind (lit (chars "0x") l) (fun l =>
  obind (many1 is_hex l) (fun '(_, l) =>
  obind (one is_space_str l) (fun l =>
  obind (lit (chars "[") l) (fun l =>
  obind (many1 is_hex l) (fun '(_, l) =>
  obind (lit (chars "/") l) (fun l =>
  obind (many1 is_hex l) (fun '(spc, l) =>
  obind (lit (chars "/") l) (fun l =>
  obind (many1 is_hex l) (fun '(_, l) =>
  obind (lit (chars "/") l) (fun l =>
  obind (many1 is_hex l) (fun '(_, l) =>
  obind (lit (chars "]") l) (fun l =>
  obind (one is_space_str l) (fun l =>
  obind (many1 is_word l) (fun '(func, l) =>
  match drop_while is_space_str l with
  | [] => Some (str scpu, str spc, str func)
  | _ => None
  end))))))))))))))))))).

End TCRE.

(* ------------------------------------------------------------------ *)
(** ** The GDB server *)

Module QEMUGDBReplay.

Definition MAX_PACKET_LENGTH : Z := 4096.

(** [SIGNALS]. *)
Definition SIG_TRAP : Z := 5.
Definition SIG_QUIT : Z := 3.

(** The fields of the server.  [_conn] is the client connection:
    [None] when there is none, otherwise the byte strings sent on it so
    far, oldest first.  [_vcpus] is a dict, kept in insertion order. *)
Record t : Type := mk {
  _xlen : Z;
  _thread_id : option Z;
  _select_thread_id : option Z;
  _conn : option (list string);
  _no_ack : bool;
  _vcpus : list (Z * QEMUVCPU.t);
  _memctrl : QEMUMemoryController.t
}.

(** [__init__(rv64)]. *)
Definition init (rv64 : option bool) : t :=
  mk (match rv64 with Some true => 8 | _ => 4 end)
     None None None false [] QEMUMemoryController.init.

Definition set_thread_id (x : option Z) (s : t) : t :=
  mk (_xlen s) x (_select_thread_id s) (_conn s) (_no_ack s)
     (_vcpus s) (_memctrl s).

Definition set_select_thread_id (x : option Z) (s : t) : t :=
  mk (_xlen s) (_thread_id s) x (_conn s) (_no_ack s)
     (_vcpus s) (_memctrl s).

Definition set_conn (c : option (list string)) (s : t) : t :=
  mk (_xlen s) (_thread_id s) (_select_thread_id s) c (_no_ack s)
     (_vcpus s) (_memctrl s).

Definition set_vcpus (vs : list (Z * QEMUVCPU.t)) (s : t) : t :=
  mk (_xlen s) (_thread_id s) (_select_thread_id s) (_conn s) (_no_ack s)
     vs (_memctrl s).

Definition set_memctrl (m : QEMUMemoryController.t) (s : t) : t :=
  mk (_xlen s) (_thread_id s) (_select_thread_id s) (_conn s) (_no_ack s)
     (_vcpus s) m.

Definition xlen (s : t) : Z := if _xlen s =? 0 then 4 else _xlen s.

(** *** The dict of vCPUs *)

Fixpoint dict_get (d : list (Z * QEMUVCPU.t)) (k : Z) : option QEMUVCPU.t :=
  match d with
  | [] => None
  | (k', v) :: rest => if k' =? k then Some v else dict_get rest k
  end.

Fixpoint dict_put (d : list (Z * QEMUVCPU.t)) (k : Z) (v : QEMUVCPU.t)
  : list (Z * QEMUVCPU.t) :=
  match d with
  | [] => [(k, v)]
  | (k', v') :: rest =>
      if k' =? k then (k', v) :: rest else (k', v') :: dict_put rest k v
  end.

(** [self._vcpus[self._thread_id]]: [KeyError] when the key is [None]
    or names no vCPU. *)
Definition current_vcpu (s : t) : result (Z * QEMUVCPU.t) :=
  match _thread_id s with
  | None => Raise KeyError
  | Some k =>
      match dict_get (_vcpus s) k with
      | Some v => Ok (k, v)
      | None => Raise KeyError
      end
  end.

(** The vCPU objects are mutated in place: the object left by a method
    call replaces the one stored under its key. *)
Definition store_vcpu (k : Z) (v : QEMUVCPU.t) (s : t) : t :=
  set_vcpus (dict_put (_vcpus s) k v) s.

(** [sorted(self._vcpus)[0]]. *)
Definition min_key (d : list (Z * QEMUVCPU.t)) : result Z :=
  match map fst d with
  | [] => Raise (IndexError "list index out of range")
  | k :: ks => Ok (fold_left Z.min ks k)
  end.

Fixpoint insert_sorted (k : Z) (l : list Z) : list Z :=
  match l with
  | [] => [k]
  | x :: rest => if k <=? x then k :: l else x :: insert_sorted k rest
  end.

(** [sorted(self._vcpus)]. *)
Definition sorted_keys (d : list (Z * QEMUVCPU.t)) : list Z :=
  fold_right insert_sorted [] (map fst d).

(** *** Loading *)

(** [load], on the lines of the log. *)
Fixpoint load_lines (lines : list string) (vcpus : list (Z * QEMUVCPU.t))
  : result (list (Z * QEMUVCPU.t)) :=
  match lines with
  | [] => Ok vcpus
  | line :: rest =>
      match TCRE.groups line with
      | None => load_lines rest vcpus
      | Some (scpu, spc, func) =>
          xcpu <- int_str 10 scpu ;;
          xpc <- int_str 16 spc ;;
          let vcpus1 :=
            match dict_get vcpus xcpu with
            | None => dict_put vcpus xcpu QEMUVCPU.init
            | Some _ => vcpus
            end in
          let vcpus2 :=
            match dict_get vcpus1 xcpu with
            | Some v => dict_put vcpus1 xcpu (QEMUVCPU.record xpc func v)
            | None => vcpus1
            end in
          load_lines rest vcpus2
      end
  end.

Definition load (lines : list string) (s : t) : result unit * t :=
  match load_lines lines (_vcpus s) with
  | Raise e => (Raise e, s)
  | Ok vcpus =>
      let s1 := set_vcpus vcpus s in
      match vcpus with
      | [] => (Raise (RuntimeError "Unable to find QEMU execution traces"), s1)
      | _ =>
          (Ok tt,
           set_vcpus (map (fun kv => (fst kv, QEMUVCPU.reset (snd kv))) vcpus)
                     s1)
      end
  end.

Definition load_bin (address : Z) (blob : list byte) (s : t) : t :=
  set_memctrl (QEMUMemoryController.add_memory address blob (_memctrl s)) s.

(** [load_elf], on what [ElfBlob] extracts from the file: the address
    width in bits, the load address and the blob. *)
Definition load_elf (address_size load_address : Z) (blob : list byte)
    (s : t) : result unit * t :=
  if _xlen s =? 0 then
    let s1 := mk (address_size / 8) (_thread_id s) (_select_thread_id s)
                 (_conn s) (_no_ack s) (_vcpus s) (_memctrl s) in
    (Ok tt, load_bin load_address blob s1)
  else if negb (address_size =? _xlen s * 8) then
    (Raise (ValueError "Wrong ELF file type (XLEN)"), s)
  else (Ok tt, load_bin load_address blob s).

(** *** Sending *)

Definition conn_send (bs : string) (s : t) : t :=
  match _conn s with
  | Some sent => set_conn (Some (sent ++ [bs])) s
  | None => s
  end.

(** The frame of a payload: [$payload#cc]. *)
Definition frame (payload : string) : string :=
  let crc := Z.land (byte_sum payload) 255 in
  String.append "$" (String.append payload (String.append "#" (format_02x crc))).

Definition _send_bytes (payload : string) (s : t) : t :=
  match _conn s with
  | Some _ => conn_send (frame payload) s
  | None => s
  end.

Definition _send (payload : string) (s : t) : t := _send_bytes payload s.

(** *** Command handlers *)

Infix "+++" := String.append (at level 60, right associativity).

(** What a handler returns: the reply ([None] for no reply) or the
    exception it lets escape, and the server it leaves. *)
Definition reply : Type := (result (option string) * t)%type.

(** [cont] of the vCPU, which always ends, with a result or an
    exception (lemma [cont_returns] below): the last case is never
    taken. *)
Definition vcpu_cont (mem : QEMUMemoryController.t) (back : bool)
    (addr : option Z) (v : QEMUVCPU.t) : result bool * QEMUVCPU.t :=
  match QEMUVCPU.cont mem back addr v with
  | Some r => r
  | None => (Raise (RuntimeError "cont: no result"), v)
  end.

(** [f'T{sig:02x}{vcpu.PC_XPOS:02x}:{spc};'] followed by [suffix]. *)
Definition stop_reply (s : t) (v : QEMUVCPU.t) (suffix : string)
  : result string :=
  xpc <- QEMUVCPU.pc (_memctrl s) v ;;
  bs <- to_bytes xpc (xlen s) ;;
  Ok ("T" +++ format_02x SIG_TRAP +++ format_02x QEMUVCPU.PC_XPOS +++ ":"
      +++ hexlify bs +++ ";" +++ suffix).

Definition lift (r : result string) (s : t) : reply :=
  match r with
  | Ok x => (Ok (Some x), s)
  | Raise e => (Raise e, s)
  end.

Definition _do_interrogate (payload : string) (s : t) : reply :=
  (Ok (Some "S00"), s).

Definition _do_bc (payload : string) (s : t) : reply :=
  match current_vcpu s with
  | Raise e => (Raise e, s)
  | Ok (k, v) =>
      let (r, v1) := vcpu_cont (_memctrl s) true None v in
      let s1 := store_vcpu k v1 s in
      match r with
      | Raise e => (Raise e, s1)
      | Ok true => lift (stop_reply s1 v1 "hwbreak:;") s1
      | Ok false => (Ok (Some "S00"), s1)
      end
  end.

Definition _do_c (payload : string) (s : t) : reply :=
  let addr :=
    if String.eqb payload "" then Ok None
    else a <- int_bytes 10 payload ;; Ok (Some a) in
  match addr with
  | Raise e => (Raise e, s)
  | Ok addr =>
      match current_vcpu s with
      | Raise e => (Raise e, s)
      | Ok (k, v) =>
          let (r, v1) := vcpu_cont (_memctrl s) false addr v in
          let s1 := store_vcpu k v1 s in
          match r with
          | Raise e => (Raise e, s1)
          | Ok true => lift (stop_reply s1 v1 "hwbreak:;") s1
          | Ok false => (Ok (Some ("S" +++ format_02x SIG_QUIT)), s1)
          end
      end
  end.

(** The text of the registers, one after the other. *)
Fixpoint regs_text (width : Z) (rs : list (option Z)) : result string :=
  match rs with
  | [] => Ok ""
  | r :: rest =>
      x <- match r with
           | Some n => bs <- to_bytes n width ;; Ok (hexlify bs)
           | None => Ok (str (repeat "x"%char (2 * Z.to_nat width)))
           end ;;
      xs <- regs_text width rest ;;
      Ok (x +++ xs)
  end.

Definition _do_g (payload : string) (s : t) : reply :=
  match current_vcpu s with
  | Raise e => (Raise e, s)
  | Ok (k, v) =>
      match QEMUVCPU.regs (_memctrl s) v with
      | (Raise e, v1) => (Raise e, store_vcpu k v1 s)
      | (Ok rs, v1) =>
          let s1 := store_vcpu k v1 s in
          lift (regs_text (xlen s1) rs) s1
      end
  end.

Definition _do_k (payload : string) (s : t) : reply :=
  let s1 :=
    set_vcpus (map (fun kv => (fst kv, QEMUVCPU.reset (snd kv))) (_vcpus s))
              s in
  match _conn s1 with
  | None => (Raise AttributeError, s1)
  | Some _ => (Ok None, set_conn None s1)
  end.

(** [addr, length = (int(x, 16) for x in text.split(',', 1))]. *)
Definition parse_mem_args (text : string) : result (Z * Z) :=
  match py_split1 "," text with
  | [a; b] =>
      addr <- int_str 16 a ;;
      length <- int_str 16 b ;;
      Ok (addr, length)
  | a :: _ =>
      _ <- int_str 16 a ;;
      Raise (ValueError "not enough values to unpack")
  | [] => Raise (ValueError "not enough values to unpack")
  end.

Definition _do_m (payload : string) (s : t) : reply :=
  match decode payload with
  | Raise e => (Raise e, s)
  | Ok text =>
      match parse_mem_args text with
      | Raise e => (Raise e, s)
      | Ok (addr, length) =>
          match QEMUMemoryController.read (_memctrl s) addr length with
          | Raise e =>
              if is_IndexError e then (Ok (Some "E01"), s) else (Raise e, s)
          | Ok data => (Ok (Some (hexlify data)), s)
          end
      end
  end.

(** The body shared by [_do_s] and [_do_bs] once the vCPU is found. *)
Definition step_reply (back : bool) (k : Z) (v : QEMUVCPU.t) (s : t)
  : reply :=
  match QEMUVCPU.step back v with
  | (Raise e, v1) => (Raise e, store_vcpu k v1 s)
  | (Ok _, v1) =>
      let s1 := store_vcpu k v1 s in
      lift (stop_reply s1 v1 "") s1
  end.

Definition _do_s (payload : string) (s : t) : reply :=
  match current_vcpu s with
  | Raise e => (Raise e, s)
  | Ok (k, v) =>
      if String.eqb payload "" then step_reply false k v s
      else (Ok (Some "E01"), s)
  end.

Definition _do_bs (payload : string) (s : t) : reply :=
  match current_vcpu s with
  | Raise e => (Raise e, s)
  | Ok (k, v) => step_reply true k v s
  end.

Definition dict_has (d : list (Z * QEMUVCPU.t)) (k : Z) : bool :=
  match dict_get d k with Some _ => true | None => false end.

Definition _do__h (payload : string) (s : t) : reply :=
  let cmd := str_slice payload 0 1 in
  if py_in cmd "GgMmc" then
    match int_bytes 16 (str_from payload 1) with
    | Raise e => if is_ValueError e then (Ok (Some "E01"), s) else (Raise e, s)
    | Ok tid =>
        if negb (tid =? -1) && negb (dict_has (_vcpus s) tid) then
          (Ok (Some "E02"), s)
        else
          let s1 := set_select_thread_id (Some tid) s in
          if tid <=? 0 then
            match min_key (_vcpus s1) with
            | Raise e => (Raise e, s1)
            | Ok k => (Ok (Some "OK"), set_thread_id (Some k) s1)
            end
          else (Ok (Some "OK"), s1)
    end
  else (Ok (Some "E03"), s).

(** [kind, addr, length = (int(x, 16) for x in text.split(b','))]: any
    failure, of a conversion or of the unpacking, is a [ValueError]. *)
Definition parse_break_args (text : string) : result (Z * Z * Z) :=
  match py_split "," text with
  | [a; b; c] =>
      kind <- int_bytes 16 a ;;
      addr <- int_bytes 16 b ;;
      length <- int_bytes 16 c ;;
      Ok (kind, addr, length)
  | _ => Raise (ValueError "wrong number of values to unpack")
  end.

Definition _do__z (payload : string) (remove : bool) (s : t) : reply :=
  match py_split ";" payload with
  | _ :: _ :: _ => (Ok (Some ""), s)
  | parts =>
      match parse_break_args (hd "" parts) with
      | Raise e =>
          if is_ValueError e then (Ok (Some "E01"), s) else (Raise e, s)
      | Ok (kind, addr, length) =>
          if negb (kind =? 1) then (Ok (Some ""), s)
          else
            match current_vcpu s with
            | Raise e => (Raise e, s)
            | Ok (k, v) =>
                let (r, v1) :=
                  if negb remove then QEMUVCPU.add_hw_break addr length v
                  else QEMUVCPU.del_hw_break addr length v in
                let s1 := store_vcpu k v1 s in
                match r with
                | Ok _ => (Ok (Some "OK"), s1)
                | Raise e =>
                    if is_ValueError e then (Ok (Some "E02"), s1)
                    else (Raise e, s1)
                end
            end
      end
  end.

Definition _do_z (payload : string) (s : t) : reply := _do__z payload true s.

(** *** Queries *)

Definition _do_query_c (payload : string) (s : t) : reply :=
  (Ok (Some ("QC" +++ match _thread_id s with
                      | Some k => format_int 10 k
                      | None => "None"
                      end)), s).

(** The loop of [_do_query_supported] over the capabilities of the
    client: [cap in ('hwbreak+')] tests [cap] against a string, the
    parentheses making no tuple. *)
Definition supported_caps (caps : list string) : list string :=
  filter (fun cap => py_in cap "hwbreak+") caps.

Definition _do_query_supported (payload : string) (s : t) : reply :=
  match decode payload with
  | Raise e => (Raise e, s)
  | Ok req =>
      let resp :=
        ["PacketSize=" +++ format_int 16 (MAX_PACKET_LENGTH - 16);
         "ReverseStep+"; "ReverseContinue+"] in
      (Ok (Some (py_join ";" (resp ++ supported_caps (py_split ";" req)))), s)
  end.

Definition _do_query_symbol (payload : string) (s : t) : reply :=
  (Ok (Some "OK"), s).

Definition _do_query_tstatus (payload : string) (s : t) : reply :=
  (Ok (Some "T0;tnotrun:0"), s).

Definition _do_query_fthreadinfo (payload : string) (s : t) : reply :=
  (Ok (Some ("m" +++ py_join ";" (map (format_int 16) (sorted_keys (_vcpus s))))),
   s).

Definition _do_query_sthreadinfo (payload : string) (s : t) : reply :=
  (Ok (Some "l"), s).

Definition _do_query_attached (payload : string) (s : t) : reply :=
  (Ok (Some "0"), s).

(** [getattr(self, f'_do_query_{name}', None)]. *)
Definition query_handler (name : string) : option (string -> t -> reply) :=
  if String.eqb name "c" then Some _do_query_c
  else if String.eqb name "supported" then Some _do_query_supported
  else if String.eqb name "symbol" then Some _do_query_symbol
  else if String.eqb name "tstatus" then Some _do_query_tstatus
  else if String.eqb name "fthreadinfo" then Some _do_query_fthreadinfo
  else if String.eqb name "sthreadinfo" then Some _do_query_sthreadinfo
  else if String.eqb name "attached" then Some _do_query_attached
  else None.

Definition _do_q (payload : string) (s : t) : reply :=
  let parts := py_split1 ":" payload in
  match decode (hd "" parts) with
  | Raise e => (Raise e, s)
  | Ok name =>
      match query_handler (py_lower name) with
      | None => (Ok (Some ""), s)
      | Some handler =>
          handler (match parts with [_; arg] => arg | _ => "" end) s
      end
  end.

(** *** Dispatch *)

(** [getattr(self, f'_do_{cmd}', None)]: the methods of the class
    whose name starts with [_do_].  A handler is called with the
    payload only, so [_do__z] adds a breakpoint. *)
Definition handler_of (cmd : string) : option (string -> t -> reply) :=
  if String.eqb cmd "interrogate" then Some _do_interrogate
  else if String.eqb cmd "bc" then Some _do_bc
  else if String.eqb cmd "c" then Some _do_c
  else if String.eqb cmd "g" then Some _do_g
  else if String.eqb cmd "k" then Some _do_k
  else if String.eqb cmd "q" then Some _do_q
  else if String.eqb cmd "m" then Some _do_m
  else if String.eqb cmd "s" then Some _do_s
  else if String.eqb cmd "bs" then Some _do_bs
  else if String.eqb cmd "_h" then Some _do__h
  else if String.eqb cmd "z" then Some _do_z
  else if String.eqb cmd "_z" then Some (fun p => _do__z p false)
  else if String.eqb cmd "query_c" then Some _do_query_c
  else if String.eqb cmd "query_supported" then Some _do_query_supported
  else if String.eqb cmd "query_symbol" then Some _do_query_symbol
  else if String.eqb cmd "query_tstatus" then Some _do_query_tstatus
  else if String.eqb cmd "query_fthreadinfo" then Some _do_query_fthreadinfo
  else if String.eqb cmd "query_sthreadinfo" then Some _do_query_sthreadinfo
  else if String.eqb cmd "query_attached" then Some _do_query_attached
  else None.

(** The name looked up for the first [clen] bytes of a request. *)
Definition command_name (req : string) (clen : Z) : result string :=
  cmd <- decode (str_slice req 0 clen) ;;
  let cmd := if String.eqb cmd "?" then "interrogate" else cmd in
  Ok (if py_in cmd ascii_uppercase then "_" +++ py_lower cmd else cmd).

Definition call_handler (handler : string -> t -> reply) (req : string)
    (clen : Z) (s : t) : result unit * t :=
  match handler (str_from req clen) s with
  | (Raise e, s1) => (Raise e, s1)
  | (Ok None, s1) => (Ok tt, s1)
  | (Ok (Some resp), s1) => (Ok tt, _send resp s1)
  end.

Definition _handle_request (req : string) (s : t) : result unit * t :=
  match command_name req 1 with
  | Raise e => (Raise e, s)
  | Ok cmd1 =>
      match handler_of cmd1 with
      | Some handler => call_handler handler req 1 s
      | None =>
          match command_name req 2 with
          | Raise e => (Raise e, s)
          | Ok cmd2 =>
              match handler_of cmd2 with
              | Some handler => call_handler handler req 2 s
              | None => (Ok tt, _send "" s)
              end
          end
      end
  end.

(** *** The serving loop *)

(** The acknowledgement of a request, sent when [_no_ack] is off. *)
Definition ack (req : string) (crc : Z) (s : t) : t :=
  if negb (_no_ack s) then
    if negb (Z.land (byte_sum req) 255 =? crc) then conn_send "-" s
    else conn_send "+" s
  else s.

(** One iteration of the loop of [_serve] whose [recv] returns [data]
    (empty for a time-out or no data): the buffer and the server it
    leaves, or the exception that ends the loop. *)
Definition serve_recv (data : string) (buf : string) (s : t)
  : result string * t :=
  if String.eqb data "" then (Ok buf, s)
  else
    let buf := buf +++ data in
    let start := py_find "$" buf 0 in
    if start <? 0 then (Ok buf, s)
    else
      let end_ := py_find "#" buf start in
      if end_ <? 0 then (Ok buf, s)
      else if slen buf - end_ <? 2 then (Ok buf, s)
      else
        let req := str_slice buf (start + 1) end_ in
        match int_bytes 16 (str_slice buf (end_ + 1) (end_ + 3)) with
        | Raise e => (Raise e, s)
        | Ok crc =>
            let buf := str_from req (end_ + 3) in
            match _handle_request req (ack req crc s) with
            | (Raise e, s1) => (Raise e, s1)
            | (Ok _, s1) => (Ok buf, s1)
            end
        end.

(** [_serve], on the successive results of [recv]: the loop runs
    while there is a connection. *)
Fixpoint _serve (datas : list string) (buf : string) (s : t)
  : result unit * t :=
  match _conn s, datas with
  | None, _ => (Ok tt, s)
  | Some _, [] => (Ok tt, s)
  | Some _, data :: rest =>
      match serve_recv data buf s with
      | (Raise e, s1) => (Raise e, s1)
      | (Ok buf1, s1) => _serve rest buf1 s1
      end
  end.

(** A server that has accepted a client, with nothing sent yet. *)
Definition accept (s : t) : t := set_conn (Some []) s.

(** What the server has sent on its connection. *)
Definition sent (s : t) : list string :=
  match _conn s with
  | Some l => l
  | None => []
  end.

End QEMUGDBReplay.

(* ------------------------------------------------------------------ *)
(** ** Vocabulary of the specification *)

Module Spec.

(** The invariant the specification gives for the cursor. *)
Definition cursor_inv (v : QEMUVCPU.t) : Prop :=
  0 <= QEMUVCPU._xpos v <= len (QEMUVCPU._seq v).

(** The operations that move the cursor. *)
Inductive cursor_op : Type :=
| Reset
| Step (back : bool)
| Cont (back : bool) (addr : option Z).

(** The vCPU an operation leaves, whether it raises or not. *)
Definition run_op (mem : QEMUMemoryController.t) (op : cursor_op)
    (v : QEMUVCPU.t) : option QEMUVCPU.t :=
  match op with
  | Reset => Some (QEMUVCPU.reset v)
  | Step back => Some (snd (QEMUVCPU.step back v))
  | Cont back addr => option_map snd (QEMUVCPU.cont mem back addr v)
  end.

(** [cont] was given a resume address and [_move_to] did not find it:
    the handler of [ValueError] in [cont] runs. *)
Definition not_found (back : bool) (addr : option Z) (v : QEMUVCPU.t)
  : bool :=
  match addr with
  | None => false
  | Some a =>
      match fst (QEMUVCPU._move_to a (negb back) v) with
      | Raise e => is_ValueError e
      | Ok _ => false
      end
  end.

(** The operations that keep a cursor inside [0, len(seq)]: all of
    them but a forward step or continue from the end position, and a
    forward continue whose resume address is not found. *)
Definition stays_inside (op : cursor_op) (v : QEMUVCPU.t) : bool :=
  match op with
  | Reset => true
  | Step true => true
  | Step false => QEMUVCPU._xpos v <? len (QEMUVCPU._seq v)
  | Cont true _ => true
  | Cont false addr =>
      (QEMUVCPU._xpos v <? len (QEMUVCPU._seq v))
      && negb (not_found false addr v)
  end.

(** Some bank holds the address. *)
Definition mapped (banks : QEMUMemoryController.t) (addr : Z) : Prop :=
  exists rng data, In (rng, data) banks /\ in_range addr rng = true.

(** No two banks of the map share an address. *)
Fixpoint no_overlap (banks : QEMUMemoryController.t) : Prop :=
  match banks with
  | [] => True
  | (rng, _) :: rest =>
      (forall rng' data' x, In (rng', data') rest ->
         in_range x rng = true -> in_range x rng' = true -> False)
      /\ no_overlap rest
  end.

(** The trace and the memory of the scenarios of the specification. *)
Definition trace3 : list (Z * string) :=
  [(4096, "f"); (4098, "f"); (4102, "f")].

Definition vcpu_at (x : Z) (hw : list range) : QEMUVCPU.t :=
  QEMUVCPU.mk trace3 (repeat None 33) x hw.

Definition bank8 : QEMUMemoryController.t :=
  QEMUMemoryController.add_memory 4096
    [x17; x05; x00; x00; x13; x05; x05; x00] QEMUMemoryController.init.

Definition trace_log : list string :=
  ["Trace 0: 0x280003d00 [00000000/00001000/00101003/ff020000] f";
   "Trace 0: 0x280003d04 [00000000/00001002/00101003/ff020000] f";
   "Trace 0: 0x280003d08 [00000000/00001006/00101003/ff020000] f"].

(** The server of the scenarios, loaded and with a client accepted. *)
Definition server : QEMUGDBReplay.t :=
  QEMUGDBReplay.accept
    (snd (QEMUGDBReplay.load trace_log
            (QEMUGDBReplay.load_bin 4096
               [x17; x05; x00; x00; x13; x05; x05; x00]
               (QEMUGDBReplay.init None)))).

End Spec.

(* ------------------------------------------------------------------ *)
(** ** ELF payload (ElfBlob) *)

Module ElfBlob.

(** What the code reads of a program header: its type, its physical
    address, its size in the file, and [segment.data()]. *)
Record Segment : Type := mkSegment {
  p_type : string;
  p_paddr : Z;
  p_filesz : Z;
  seg_data : list byte
}.

(** [sorted(segments, key=lambda seg: seg['p_paddr'])]: the sort is
    stable, a segment stays before the later ones of the same address. *)
Fixpoint insert_seg (x : Segment) (l : list Segment) : list Segment :=
  match l with
  | [] => [x]
  | y :: rest =>
      if p_paddr x <=? p_paddr y then x :: l else y :: insert_seg x rest
  end.

Definition sorted_segments (segs : list Segment) : list Segment :=
  fold_right insert_seg [] segs.

(** [_loadable_segments], on the segments of a loaded file. *)
Definition _loadable_segments (segs : list Segment) : list Segment :=
  filter (fun seg => String.eqb (p_type seg) "PT_LOAD"
                     && negb (p_filesz seg =? 0))
         (sorted_segments segs).

(** One iteration of the loop of [_parse_segments], on the pair
    [(phy_start, size)]. *)
Definition parse_step (st : option Z * Z) (seg : Segment) : option Z * Z :=
  let (phy_start, size) := st in
  let seg_size := p_filesz seg in
  if seg_size =? 0 then st
  else
    let phy_addr := p_paddr seg in
    match phy_start with
    | None => (Some phy_addr, size + seg_size)
    | Some start =>
        let size := if start + size <? phy_addr then phy_addr - start
                    else size in
        (Some start, size + seg_size)
    end.

Definition _parse_segments (segs : list Segment) : result (Z * Z) :=
  match fold_left parse_step (_loadable_segments segs) (None, 0) with
  | (None, _) => Raise (ValueError "No loadable segment found")
  | (Some phy_start, size) => Ok (phy_start, size)
  end.

(** [bytes(n)]: [n] zero bytes. *)
Definition zeros (n : Z) : list byte := repeat x00 (Z.to_nat n).

(** One iteration of the loop of [_build_payload], on the pair
    [(phy_start, buf)]; [buf.tell()] is the length written. *)
Definition build_step (st : option Z * list byte) (seg : Segment)
  : option Z * list byte :=
  let (phy_start, buf) := st in
  let phy_addr := p_paddr seg in
  match phy_start with
  | None => (Some phy_addr, buf ++ seg_data seg)
  | Some start =>
      let current_addr := start + len buf in
      let buf := if current_addr <? phy_addr
                 then buf ++ zeros (phy_addr - current_addr) else buf in
      (Some start, buf ++ seg_data seg)
  end.

Definition _build_payload (segs : list Segment) : list byte :=
  snd (fold_left build_step (_loadable_segments segs) (None, [])).

(** [blob], from a fresh object: the payload, checked against the size
    that [_parse_segments] computes. *)
Definition blob (segs : list Segment) : result (list byte) :=
  let payload := _build_payload segs in
  r <- _parse_segments segs ;;
  if negb (len payload =? snd r) then
    Raise (RuntimeError "Internal error: size mismatch")
  else Ok payload.

End ElfBlob.

(* ------------------------------------------------------------------ *)
(** ** Helpers (ot/util/misc.py) and the exit code generator (swexit.py) *)

Module Misc.

(** [round_up(value, rnd)]. *)
Definition round_up (value rnd : Z) : Z := Z.land (value + rnd - 1) (- rnd).

(** [HexInt.__repr__]. *)
Definition HexInt_repr (n : Z) : string := String.append "0x" (format_int 16 n).

(** [HexInt.parse]. *)
Definition HexInt_parse (val : option string) : result (option Z) :=
  match val with
  | None => Ok None
  | Some v =>
      n <- int_str (if String.prefix "0x" v then 16 else 10) v ;;
      Ok (Some n)
  end.

End Misc.

Module SwExit.

Definition LUI_MASK : Z := Z.shiftl 1 12 - 1.

(** [struct.pack('<I', x)]: [None] for the [struct.error] of a value
    outside 32 bits. *)
Definition pack_u32 (x : Z) : option (list byte) :=
  if (x <? 0) || (2 ^ 32 <=? x) then None else Some (le_bytes 4 x).

(** The code that [main] writes for the wrapper base address [addr]. *)
Definition bincode (addr : Z) : option (list byte) :=
  let addr := Z.land addr (Z.lnot LUI_MASK) in
  let lui := Z.lor addr 1335 in
  match pack_u32 lui, pack_u32 3235775927, pack_u32 11871267,
        pack_u32 273678451 with
  | Some a, Some b, Some c, Some d => Some (a ++ b ++ c ++ d)
  | _, _, _, _ => None
  end.

End SwExit.

Module TraceLog.



End TraceLog.

Module Digits.

(** The characters that [format_int] writes for the digits: each reads
    back as its digit, and is neither white space, nor a sign, nor an
    underscore, nor the [x] of a prefix. *)
Definition plain_digit (base : Z) (c : ascii) : Prop :=
  0 <= digit_value c < base
  /\ is_space_str c = false /\ is_space_bytes c = false
  /\ Ascii.eqb c "-" = false /\ Ascii.eqb c "+" = false
  /\ Ascii.eqb c "_" = false
  /\ Ascii.eqb c "x" = false /\ Ascii.eqb c "X" = false.

End Digits.

Module Wire.

(** The bytes [$req#cc] of a frame on the wire. *)
Definition wire (req cc : string) : string :=
  String "$" (String.append req (String "#" cc)).

End Wire.

(* ------------------------------------------------------------------ *)
(** ** Properties of the cursor *)

Module CursorProps.

Import QEMUVCPU.

Lemma set_xpos_same (v : t) : set_xpos (_xpos v) v = v.
Proof. destruct v; reflexivity. Qed.

Lemma step_forward_eq (v : t) :
  step false v =
    (if len (_seq v) <=? _xpos v + 1 then Raise EndOfStream else Ok tt,
     set_xpos (_xpos v + 1) v).
Proof.
  unfold step; cbn [negb set_xpos _seq _xpos].
  destruct (len (_seq v) <=? _xpos v + 1); reflexivity.
Qed.

Lemma step_backward_eq (v : t) :
  step true v =
    if 0 <? _xpos v then (Ok tt, set_xpos (_xpos v - 1) v)
    else (Raise StartOfStream, v).
Proof. reflexivity. Qed.

Lemma step_seq (back : bool) (v : t) : _seq (snd (step back v)) = _seq v.
Proof.
  destruct back; [rewrite step_backward_eq | rewrite step_forward_eq].
  - destruct (0 <? _xpos v); reflexivity.
  - reflexivity.
Qed.

Lemma step_hwbreaks (back : bool) (v : t) :
  _hwbreaks (snd (step back v)) = _hwbreaks v.
Proof.
  destruct back; [rewrite step_backward_eq | rewrite step_forward_eq].
  - destruct (0 <? _xpos v); reflexivity.
  - reflexivity.
Qed.

(** C1, as the code has it: a forward step raises EndOfStream exactly
    when the incremented cursor reaches [len(seq)] (it need not exceed
    it), and succeeds exactly when the incremented cursor is below
    [len(seq)]; either way the cursor is incremented, so a forward step
    from [len(seq) - 1] raises and leaves the cursor at [len(seq)]; and
    from any cursor [0 <= k] a backward step after the forward step
    succeeds and restores the vCPU. *)
Theorem step_forward_end (v : t) (Hk : 0 <= _xpos v) :
  (fst (step false v) = Raise EndOfStream <-> len (_seq v) <= _xpos v + 1)
  /\ (fst (step false v) = Ok tt <-> _xpos v + 1 < len (_seq v))
  /\ _xpos (snd (step false v)) = _xpos v + 1
  /\ step true (snd (step false v)) = (Ok tt, v).
Proof.
  rewrite step_forward_eq; cbn [fst snd].
  repeat split.
  - destruct (len (_seq v) <=? _xpos v + 1) eqn:E; [lia | discriminate].
  - intro H. apply Z.leb_le in H. rewrite H. reflexivity.
  - destruct (len (_seq v) <=? _xpos v + 1) eqn:E; [discriminate | lia].
  - intro H. apply Z.leb_gt in H. rewrite H. reflexivity.
  - rewrite step_backward_eq; cbn [set_xpos _xpos _seq _regs _hwbreaks].
    replace (0 <? _xpos v + 1) with true by (symmetry; apply Z.ltb_lt; lia).
    replace (_xpos v + 1 - 1) with (_xpos v) by lia.
    destruct v; reflexivity.
Qed.

(** The forward step from the last recorded instruction of the trace
    of the scenarios: it raises, the cursor is at the end position,
    and the backward step returns to the last instruction. *)
Lemma step_forward_end_witness :
  fst (step false (Spec.vcpu_at 2 [])) = Raise EndOfStream
  /\ _xpos (snd (step false (Spec.vcpu_at 2 []))) = 3
  /\ step true (snd (step false (Spec.vcpu_at 2 [])))
     = (Ok tt, Spec.vcpu_at 2 []).
Proof.
  destruct (step_forward_end (Spec.vcpu_at 2 []))
    as [[_ H1] [_ [H2 H3]]].
  - vm_compute; discriminate.
  - split; [apply H1; vm_compute; discriminate | split; [exact H2 | exact H3]].
Defined.

(** C1 as stated fails: with the cursor on the last recorded
    instruction ([len(seq) - 1], here 2 of 3) the incremented cursor
    does not exceed [len(seq)], yet the forward step raises
    EndOfStream. *)
Lemma step_forward_last_raises :
  let v := Spec.vcpu_at 2 [] in
  _xpos v = len (_seq v) - 1
  /\ ~ (len (_seq v) < _xpos v + 1)
  /\ fst (step false v) = Raise EndOfStream
  /\ fst (step false v) <> Ok tt.
Proof.
  cbv zeta. repeat split.
  - vm_compute; discriminate.
  - discriminate.
Qed.

(** C10: a forward step that raises has advanced the cursor by one, a
    backward step that raises has left the vCPU as it was; the forward
    step raises whenever the incremented cursor reaches [len(seq)], the
    backward step at cursor 0. *)
Theorem failing_step_cursor (v : t) (e : exn) :
  (fst (step false v) = Raise e ->
     e = EndOfStream /\ snd (step false v) = set_xpos (_xpos v + 1) v)
  /\ (fst (step true v) = Raise e ->
     e = StartOfStream /\ snd (step true v) = v)
  /\ (len (_seq v) <= _xpos v + 1 ->
     step false v = (Raise EndOfStream, set_xpos (_xpos v + 1) v))
  /\ (_xpos v = 0 -> step true v = (Raise StartOfStream, v)).
Proof.
  rewrite step_forward_eq, step_backward_eq; cbn [fst snd].
  repeat split.
  - destruct (len (_seq v) <=? _xpos v + 1); [congruence | discriminate].
  - destruct (0 <? _xpos v); cbn [fst] in *; [discriminate | congruence].
  - destruct (0 <? _xpos v); cbn [fst snd] in *; [discriminate | reflexivity].
  - intro H. apply Z.leb_le in H. rewrite H. reflexivity.
  - intro H. rewrite H. reflexivity.
Qed.

(** At the end of the trace of the scenarios the forward step raises
    with the cursor moved from 3 to 4; at its start the backward step
    raises with the cursor still 0. *)
Lemma failing_step_cursor_witness :
  step false (Spec.vcpu_at 3 []) = (Raise EndOfStream, Spec.vcpu_at 4 [])
  /\ step true (Spec.vcpu_at 0 []) = (Raise StartOfStream, Spec.vcpu_at 0 []).
Proof.
  split.
  - apply (failing_step_cursor (Spec.vcpu_at 3 []) EndOfStream).
    vm_compute; discriminate.
  - apply (failing_step_cursor (Spec.vcpu_at 0 []) StartOfStream).
    reflexivity.
Defined.

(** *** The loop of [cont] *)

Lemma len_nonneg {A : Type} (l : list A) : 0 <= len l.
Proof. unfold len; lia. Qed.

(** The forward loop returns within its fuel, with the cursor moved
    forward, and not beyond [len(seq)] unless it started there. *)
Lemma cont_loop_forward (mem : QEMUMemoryController.t) :
  forall (fuel : nat) (last : option Z) (v : t),
    (Z.to_nat (len (_seq v) - _xpos v) < fuel)%nat ->
    exists r v',
      cont_loop fuel mem false last v = Some (r, v')
      /\ _seq v' = _seq v /\ _hwbreaks v' = _hwbreaks v
      /\ _xpos v + 1 <= _xpos v' <= Z.max (len (_seq v)) (_xpos v + 1).
Proof.
  induction fuel as [|fuel IH]; intros last v Hf; [lia|].
  cbn [cont_loop]. rewrite step_forward_eq.
  destruct (len (_seq v) <=? _xpos v + 1) eqn:E.
  - cbn. eexists _, _. split; [reflexivity|]. cbn. repeat split; lia.
  - apply Z.leb_gt in E.
    set (v1 := set_xpos (_xpos v + 1) v).
    assert (Hv1 : (Z.to_nat (len (_seq v1) - _xpos v1) < fuel)%nat)
      by (subst v1; cbn; lia).
    assert (Hret : forall r : result bool, exists r0 v',
               Some (r, v1) = Some (r0, v')
               /\ _seq v' = _seq v /\ _hwbreaks v' = _hwbreaks v
               /\ _xpos v + 1 <= _xpos v'
                  <= Z.max (len (_seq v)) (_xpos v + 1)).
    { intro r. exists r, v1. split; [reflexivity|].
      subst v1; cbn; repeat split; lia. }
    assert (Hrec : forall l, exists r0 v',
               cont_loop fuel mem false l v1 = Some (r0, v')
               /\ _seq v' = _seq v /\ _hwbreaks v' = _hwbreaks v
               /\ _xpos v + 1 <= _xpos v'
                  <= Z.max (len (_seq v)) (_xpos v + 1)).
    { intro l. destruct (IH l v1 Hv1) as (r0 & v' & H1 & H2 & H3 & H4).
      exists r0, v'. split; [exact H1|].
      subst v1; cbn in *. repeat split; try congruence; lia. }
    destruct (instruction_length mem v1); [|apply Hret].
    destruct (pc mem v1); [|apply Hret].
    destruct (opt_Z_eqb last a0); [apply Hrec|].
    destruct (existsb (in_range a0) (_hwbreaks v1)); [apply Hret|apply Hrec].
Qed.

(** The backward loop returns within its fuel, with the cursor moved
    backward and not below 0. *)
Lemma cont_loop_backward (mem : QEMUMemoryController.t) :
  forall (fuel : nat) (last : option Z) (v : t),
    (Z.to_nat (_xpos v) < fuel)%nat ->
    exists r v',
      cont_loop fuel mem true last v = Some (r, v')
      /\ _seq v' = _seq v /\ _hwbreaks v' = _hwbreaks v
      /\ Z.min 0 (_xpos v) <= _xpos v' <= _xpos v.
Proof.
  induction fuel as [|fuel IH]; intros last v Hf; [lia|].
  cbn [cont_loop]. rewrite step_backward_eq.
  destruct (0 <? _xpos v) eqn:E.
  - apply Z.ltb_lt in E.
    set (v1 := set_xpos (_xpos v - 1) v).
    assert (Hv1 : (Z.to_nat (_xpos v1) < fuel)%nat) by (subst v1; cbn; lia).
    assert (Hret : forall r : result bool, exists r0 v',
               Some (r, v1) = Some (r0, v')
               /\ _seq v' = _seq v /\ _hwbreaks v' = _hwbreaks v
               /\ Z.min 0 (_xpos v) <= _xpos v' <= _xpos v).
    { intro r. exists r, v1. split; [reflexivity|].
      subst v1; cbn; repeat split; lia. }
    assert (Hrec : forall l, exists r0 v',
               cont_loop fuel mem true l v1 = Some (r0, v')
               /\ _seq v' = _seq v /\ _hwbreaks v' = _hwbreaks v
               /\ Z.min 0 (_xpos v) <= _xpos v' <= _xpos v).
    { intro l. destruct (IH l v1 Hv1) as (r0 & v' & H1 & H2 & H3 & H4).
      exists r0, v'. split; [exact H1|].
      subst v1; cbn in *. repeat split; try congruence; lia. }
    destruct (instruction_length mem v1); [|apply Hret].
    destruct (pc mem v1); [|apply Hret].
    destruct (opt_Z_eqb last a0); [apply Hrec|].
    destruct (existsb (in_range a0) (_hwbreaks v1)); [apply Hret|apply Hrec].
  - apply Z.ltb_ge in E. cbn.
    eexists _, _. split; [reflexivity|]. repeat split; lia.
Qed.

(** *** Repositioning *)

Lemma py_index_ok {A : Type} (l : list A) (i : Z) (a : A) :
  py_index l i = Ok a -> 0 <= i -> i < len l.
Proof.
  unfold py_index. intros H Hi.
  replace (i <? 0) with false in H by (symmetry; apply Z.ltb_ge; lia).
  destruct (i <? 0) eqn:E1; cbn [orb] in H; [discriminate|].
  destruct (len l <=? i) eqn:E2; [discriminate|].
  apply Z.leb_gt in E2. exact E2.
Qed.

Lemma py_index_raises {A : Type} (l : list A) (i : Z) (e : exn) :
  py_index l i = Raise e -> is_ValueError e = false.
Proof.
  unfold py_index. intro H.
  destruct ((_ <? 0) || _); [injection H as <-; reflexivity|].
  destruct (nth_error l _); [discriminate | injection H as <-; reflexivity].
Qed.

Lemma move_fwd_cases (seq : list (Z * string)) (pc : Z) :
  forall (fuel : nat) (pos : Z),
    match move_fwd fuel seq pc pos with
    | Ok (Some p) => pos <= p < len seq
    | Ok None => True
    | Raise e => is_ValueError e = false
    end.
Proof.
  induction fuel as [|fuel IH]; intro pos; cbn [move_fwd]; [exact I|].
  destruct (pos <? len seq) eqn:E; [|exact I].
  apply Z.ltb_lt in E.
  destruct (py_index seq pos) as [e|e] eqn:Hi; cbn [bind].
  - destruct (fst e =? pc); [lia|].
    specialize (IH (pos + 1)).
    destruct (move_fwd fuel seq pc (pos + 1)) as [[p|]|]; auto; lia.
  - eapply py_index_raises; eassumption.
Qed.

Lemma move_bwd_cases (seq : list (Z * string)) (pc : Z) :
  forall (fuel : nat) (pos : Z),
    match move_bwd fuel seq pc pos with
    | Ok (Some p) => 0 <= p <= pos /\ p < len seq
    | Ok None => True
    | Raise e => is_ValueError e = false
    end.
Proof.
  induction fuel as [|fuel IH]; intro pos; cbn [move_bwd]; [exact I|].
  destruct (0 <=? pos) eqn:E; [|exact I].
  apply Z.leb_le in E.
  destruct (py_index seq pos) as [e|e] eqn:Hi; cbn [bind].
  - destruct (fst e =? pc).
    + apply py_index_ok in Hi; lia.
    + specialize (IH (pos - 1)).
      destruct (move_bwd fuel seq pc (pos - 1)) as [[p|]|]; auto; lia.
  - eapply py_index_raises; eassumption.
Qed.

(** What [_move_to] leaves: the cursor on a position in the direction
    of travel, or the vCPU unchanged with an exception. *)
Lemma move_to_cases (a : Z) (forward : bool) (v : t) :
  (exists p, _move_to a forward v = (Ok tt, set_xpos p v)
             /\ (if forward then _xpos v <= p < len (_seq v)
                 else 0 <= p <= _xpos v /\ p < len (_seq v)))
  \/ (exists e, _move_to a forward v = (Raise e, v)).
Proof.
  unfold _move_to. destruct forward.
  - pose proof (move_fwd_cases (_seq v) a
                  (move_fuel true (_seq v) (_xpos v)) (_xpos v)) as H.
    destruct (move_fwd _ _ _ _) as [[p|]|e].
    + left. exists p. split; [reflexivity | exact H].
    + right. eexists; reflexivity.
    + right. eexists; reflexivity.
  - pose proof (move_bwd_cases (_seq v) a
                  (move_fuel false (_seq v) (_xpos v)) (_xpos v)) as H.
    destruct (move_bwd _ _ _ _) as [[p|]|e].
    + left. exists p. split; [reflexivity | exact H].
    + right. eexists; reflexivity.
    + right. eexists; reflexivity.
Qed.

(** The fuel that [_move_to] gives its loops is enough: with more,
    the forward loop finds the same position. *)
Lemma move_fwd_fuel (seq : list (Z * string)) (pc : Z) :
  forall (fuel : nat) (pos : Z),
    (Z.to_nat (len seq - pos) <= fuel)%nat ->
    move_fwd fuel seq pc pos = move_fwd (S fuel) seq pc pos.
Proof.
  induction fuel as [|fuel IH]; intros pos Hf.
  - cbn [move_fwd].
    replace (pos <? len seq) with false
      by (symmetry; apply Z.ltb_ge; lia). reflexivity.
  - cbn [move_fwd] in *. destruct (pos <? len seq) eqn:E; [|reflexivity].
    apply Z.ltb_lt in E.
    destruct (py_index seq pos); cbn [bind]; [|reflexivity].
    destruct (fst a =? pc); [reflexivity|].
    rewrite (IH (pos + 1)) by lia. reflexivity.
Qed.

Lemma move_bwd_fuel (seq : list (Z * string)) (pc : Z) :
  forall (fuel : nat) (pos : Z),
    (Z.to_nat (pos + 1) <= fuel)%nat ->
    move_bwd fuel seq pc pos = move_bwd (S fuel) seq pc pos.
Proof.
  induction fuel as [|fuel IH]; intros pos Hf.
  - cbn [move_bwd].
    replace (0 <=? pos) with false
      by (symmetry; apply Z.leb_gt; lia). reflexivity.
  - cbn [move_bwd] in *. destruct (0 <=? pos) eqn:E; [|reflexivity].
    apply Z.leb_le in E.
    destruct (py_index seq pos); cbn [bind]; [|reflexivity].
    destruct (fst a =? pc); [reflexivity|].
    rewrite (IH (pos - 1)) by lia. reflexivity.
Qed.

(** *** [cont] *)

(** [cont] returns, leaves the trace as it is, and moves the cursor
    within the bounds stated. *)
Lemma cont_cursor (mem : QEMUMemoryController.t) (back : bool)
    (addr : option Z) (v : t) :
  Spec.cursor_inv v ->
  exists r v',
    cont mem back addr v = Some (r, v')
    /\ _seq v' = _seq v
    /\ (if back then
          0 <= _xpos v' <= len (_seq v)
          /\ (Spec.not_found true addr v = false -> _xpos v' <= _xpos v)
        else
          _xpos v <= _xpos v' <= len (_seq v) + 1
          /\ (Spec.not_found false addr v = false ->
              _xpos v < len (_seq v) -> _xpos v' <= len (_seq v))).
Proof.
  unfold Spec.cursor_inv. intros Hinv.
  assert (Hloop : forall v1 : t,
    _seq v1 = _seq v ->
    0 <= _xpos v1 <= len (_seq v) ->
    exists r v',
      cont_loop (cont_fuel back v1) mem back None v1 = Some (r, v')
      /\ _seq v' = _seq v
      /\ (if back then 0 <= _xpos v' <= _xpos v1
          else _xpos v1 + 1 <= _xpos v'
               <= Z.max (len (_seq v)) (_xpos v1 + 1))).
  { intros v1 Hs Hx. destruct back.
    - destruct (cont_loop_backward mem (cont_fuel true v1) None v1)
        as (r & v' & H1 & H2 & _ & H4); [cbn; lia|].
      exists r, v'. repeat split; try congruence; lia.
    - destruct (cont_loop_forward mem (cont_fuel false v1) None v1)
        as (r & v' & H1 & H2 & _ & H4); [cbn; lia|].
      exists r, v'. rewrite Hs in H4. repeat split; try congruence; lia. }
  unfold cont, Spec.not_found. destruct addr as [a|].
  - destruct (move_to_cases a (negb back) v) as [(p & Hm & Hp)|(e & Hm)];
      destruct back; cbn [negb] in *; rewrite Hm; cbn [fst].
    + destruct (Hloop (set_xpos p v)) as (r & v' & H1 & H2 & H3);
        [reflexivity | cbn [set_xpos _xpos]; lia |].
      exists r, v'. cbn [set_xpos _xpos] in H3. repeat split; auto; lia.
    + destruct (Hloop (set_xpos p v)) as (r & v' & H1 & H2 & H3);
        [reflexivity | cbn [set_xpos _xpos]; lia |].
      exists r, v'. cbn [set_xpos _xpos] in H3. repeat split; auto; lia.
    + destruct (is_ValueError e) eqn:Ee.
      * destruct (Hloop (set_xpos (len (_seq v)) v))
          as (r & v' & H1 & H2 & H3); [reflexivity | cbn; lia |].
        exists r, v'. cbn [set_xpos _xpos] in H3.
        repeat split; auto; try lia; try (intro; discriminate).
      * exists (Raise e), v. repeat split; lia.
    + destruct (is_ValueError e) eqn:Ee.
      * destruct (Hloop (set_xpos (len (_seq v)) v))
          as (r & v' & H1 & H2 & H3); [reflexivity | cbn; lia |].
        exists r, v'. cbn [set_xpos _xpos] in H3.
        repeat split; auto; try lia; try (intro; discriminate).
      * exists (Raise e), v. repeat split; lia.
  - destruct (Hloop v) as (r & v' & H1 & H2 & H3); [reflexivity | lia |].
    exists r, v'. split; [exact H1|]. split; [exact H2|].
    destruct back; repeat split; lia.
Qed.

(** [cont] returns from every vCPU: the fuel of its loop is enough. *)
Lemma cont_returns (mem : QEMUMemoryController.t) (back : bool)
    (addr : option Z) (v : t) :
  exists r, cont mem back addr v = Some r.
Proof.
  assert (Hloop : forall v1 : t, exists r,
             cont_loop (cont_fuel back v1) mem back None v1 = Some r).
  { intro v1. destruct back.
    - destruct (cont_loop_backward mem (cont_fuel true v1) None v1)
        as (r & v' & H & _); [cbn; lia|].
      exists (r, v'). exact H.
    - destruct (cont_loop_forward mem (cont_fuel false v1) None v1)
        as (r & v' & H & _); [cbn; lia|].
      exists (r, v'). exact H. }
  unfold cont. destruct addr as [a|]; [|apply Hloop].
  destruct (_move_to a (negb back) v) as [[u|e] v1]; [apply Hloop|].
  destruct (is_ValueError e); [apply Hloop|].
  eexists; reflexivity.
Qed.


(** *** The invariant of the cursor *)

(** C3, as the code has it: from a cursor in [0, len(seq)] every
    cursor operation returns and leaves the trace as it is and the
    cursor in [0, len(seq) + 1]; the cursor stays in [0, len(seq)]
    after a reset, after a backward step or continue, and after a
    forward step or continue from below [len(seq)] (for a continue
    with a resume address: when the address is found). *)
Theorem cursor_invariant (mem : QEMUMemoryController.t)
    (op : Spec.cursor_op) (v : t) (Hinv : Spec.cursor_inv v) :
  exists v',
    Spec.run_op mem op v = Some v'
    /\ _seq v' = _seq v
    /\ 0 <= _xpos v' <= len (_seq v') + 1
    /\ (Spec.stays_inside op v = true -> Spec.cursor_inv v').
Proof.
  pose proof Hinv as Hx. unfold Spec.cursor_inv in Hx |- *.
  destruct op as [|back|back addr]; cbn [Spec.run_op Spec.stays_inside].
  - exists (reset v). cbn. repeat split; lia.
  - exists (snd (step back v)). split; [reflexivity|].
    destruct back; [rewrite step_backward_eq | rewrite step_forward_eq].
    + destruct (0 <? _xpos v) eqn:E; cbn; repeat split; lia.
    + cbn. repeat split; lia.
  - destruct (cont_cursor mem back addr v Hinv) as (r & v' & H1 & H2 & H3).
    exists v'. rewrite H1, H2. split; [reflexivity|]. split; [reflexivity|].
    destruct back.
    + destruct H3 as [H3 _]. repeat split; lia.
    + destruct H3 as [H3 H4]. repeat split; try lia.
      apply andb_prop in H as [Ha Hb]. apply Z.ltb_lt in Ha.
      apply H4; [|exact Ha].
      destruct (Spec.not_found false addr v); [discriminate|reflexivity].
Qed.

(** A forward step from the middle of the trace of the scenarios
    keeps the cursor inside the trace. *)
Lemma cursor_invariant_witness :
  exists v',
    Spec.run_op Spec.bank8 (Spec.Step false) (Spec.vcpu_at 1 []) = Some v'
    /\ Spec.cursor_inv v'.
Proof.
  destruct (cursor_invariant Spec.bank8 (Spec.Step false)
              (Spec.vcpu_at 1 [])) as (v' & H1 & _ & _ & H4).
  - unfold Spec.cursor_inv; vm_compute; split; discriminate.
  - exists v'. split; [exact H1 | apply H4; reflexivity].
Defined.

(** C3 as stated fails: the end position [cursor = len(seq)] satisfies
    the invariant, and a forward step from it, or a forward continue,
    leaves [cursor = len(seq) + 1]. *)
Lemma cursor_invariant_broken :
  let v := Spec.vcpu_at 3 [] in
  Spec.cursor_inv v
  /\ Spec.run_op Spec.bank8 (Spec.Step false) v = Some (Spec.vcpu_at 4 [])
  /\ Spec.run_op Spec.bank8 (Spec.Cont false None) v
     = Some (Spec.vcpu_at 4 [])
  /\ ~ Spec.cursor_inv (Spec.vcpu_at 4 []).
Proof.
  cbv zeta. unfold Spec.cursor_inv. repeat split.
  - vm_compute; discriminate.
  - vm_compute; discriminate.
  - vm_compute. intros [_ H]. apply H. reflexivity.
Qed.

End CursorProps.

(* ------------------------------------------------------------------ *)
(** ** Properties of the memory map *)

Module MemoryProps.

Import QEMUMemoryController.

(** A slice with bounds that are not negative is the plain one: skip
    [a] elements, keep at most [n]. *)
Lemma py_slice_nonneg {A : Type} (l : list A) (a n : Z) :
  0 <= a -> 0 <= n ->
  py_slice l a (a + n) = firstn (Z.to_nat n) (skipn (Z.to_nat a) l).
Proof.
  intros Ha Hn. unfold py_slice, slice_bound.
  replace (a <? 0) with false by (symmetry; apply Z.ltb_ge; lia).
  replace (a + n <? 0) with false by (symmetry; apply Z.ltb_ge; lia).
  unfold len. set (L := List.length l).
  destruct (Z_le_gt_dec a (Z.of_nat L)) as [Hle|Hgt].
  - replace (Z.to_nat (Z.max 0 (Z.min (Z.of_nat L) a))) with (Z.to_nat a)
      by lia.
    replace (Z.to_nat (Z.max 0 (Z.min (Z.of_nat L) (a + n))
                       - Z.max 0 (Z.min (Z.of_nat L) a)))
      with (Nat.min (Z.to_nat n) (L - Z.to_nat a)) by lia.
    rewrite <- (firstn_all (skipn (Z.to_nat a) l)) at 2.
    rewrite firstn_firstn, length_skipn. reflexivity.
  - rewrite (skipn_all2 (n := Z.to_nat a)) by (fold L; lia).
    rewrite (skipn_all2 (n := Z.to_nat _)) by (fold L; lia).
    rewrite !firstn_nil. reflexivity.
Qed.

Lemma py_slice_length {A : Type} (l : list A) (a n : Z) :
  0 <= a -> 0 <= n -> len (py_slice l a (a + n)) <= n.
Proof.
  intros Ha Hn. rewrite py_slice_nonneg by assumption.
  unfold len. rewrite length_firstn. lia.
Qed.

(** [read] raises exactly when no bank holds the address, and then
    it raises NotMapped. *)
Lemma read_raises (banks : t) (addr n : Z) :
  (forall e, read banks addr n = Raise e -> e = NotMapped)
  /\ (read banks addr n = Raise NotMapped <-> ~ Spec.mapped banks addr).
Proof.
  unfold Spec.mapped.
  induction banks as [|[rng data] rest [IH1 IH2]]; cbn [read].
  - split; [intros e H; congruence|].
    split; [intros _ (r & d & [] & _) | reflexivity].
  - destruct (in_range addr rng) eqn:E; cbn [negb].
    + split; [discriminate|]. split; [discriminate|].
      intro H. exfalso. apply H. exists rng, data.
      split; [left; reflexivity | exact E].
    + split; [exact IH1|]. rewrite IH2. split.
      * intros H (r & d & [Heq|Hin] & Hr).
        -- injection Heq as <- <-. congruence.
        -- apply H. exists r, d. auto.
      * intros H (r & d & Hin & Hr). apply H. exists r, d.
        split; [right; exact Hin | exact Hr].
Qed.

(** With banks that do not overlap, [read] serves the address from
    the one bank that holds it. *)
Lemma read_bank (banks : t) (addr n : Z) (rng : range) (data : list byte) :
  Spec.no_overlap banks ->
  In (rng, data) banks -> in_range addr rng = true ->
  read banks addr n
    = Ok (py_slice data (addr - start rng) (addr - start rng + n))
  /\ (forall rng' data', In (rng', data') banks ->
        in_range addr rng' = true -> (rng', data') = (rng, data)).
Proof.
  induction banks as [|[r0 d0] rest IH]; intros Hno Hin Hr; [destruct Hin|].
  destruct Hno as [Hhead Hrest]. cbn [read].
  destruct Hin as [Heq|Hin].
  - injection Heq as -> ->. rewrite Hr; cbn [negb].
    split; [reflexivity|].
    intros r' d' [Heq|Hin'] Hr'; [symmetry; exact Heq|].
    exfalso. eapply Hhead; eassumption.
  - destruct (in_range addr r0) eqn:E; cbn [negb].
    + exfalso. eapply Hhead; eassumption.
    + destruct (IH Hrest Hin Hr) as [H1 H2]. split; [exact H1|].
      intros r' d' [Heq|Hin'] Hr'; [|apply H2; assumption].
      injection Heq as <- <-. congruence.
Qed.

(** A read that succeeds was served by a bank. *)
Lemma read_ok_mapped (banks : t) (addr n : Z) (bs : list byte) :
  read banks addr n = Ok bs -> Spec.mapped banks addr.
Proof.
  intro H. destruct (read_raises banks addr n) as [_ [_ H2]].
  unfold Spec.mapped in *.
  induction banks as [|[rng data] rest IH]; cbn [read] in H; [discriminate|].
  destruct (in_range addr rng) eqn:E; cbn [negb] in H.
  - exists rng, data. split; [left; reflexivity | exact E].
  - destruct (read_raises rest addr n) as [_ [_ H3]].
    destruct (IH H) as (r & d & Hin & Hr).
    + intro Hn. apply H3. exact Hn.
    + exists r, d. split; [right; exact Hin | exact Hr].
Qed.

(** C8: when the read of 4 bytes at [pc] succeeds, the length is 2 if
    the two low bits of the little-endian value are 00 and 4
    otherwise; when no bank holds [pc] it is 4; in every case
    [_get_instruction_length] returns, 2 or 4, and raises nothing. *)
Theorem instruction_length_inference (mem : t) (pc : Z) :
  (forall bs, read mem pc 4 = Ok bs ->
     (Z.land (int_from_bytes_little bs) 3 = 0 ->
        QEMUVCPU._get_instruction_length mem pc = Ok 2)
     /\ (Z.land (int_from_bytes_little bs) 3 <> 0 ->
        QEMUVCPU._get_instruction_length mem pc = Ok 4))
  /\ (~ Spec.mapped mem pc -> QEMUVCPU._get_instruction_length mem pc = Ok 4)
  /\ (exists l, QEMUVCPU._get_instruction_length mem pc = Ok l
                /\ (l = 2 \/ l = 4)).
Proof.
  unfold QEMUVCPU._get_instruction_length. split; [|split].
  - intros bs H. rewrite H. split; intro Hb.
    + rewrite Hb. reflexivity.
    + apply Z.eqb_neq in Hb. rewrite Hb. reflexivity.
  - intro Hn. apply (read_raises mem pc 4) in Hn. rewrite Hn. reflexivity.
  - destruct (read mem pc 4) as [bs|e] eqn:H.
    + destruct (Z.land (int_from_bytes_little bs) 3 =? 0); cbn [negb];
        eexists; split; try reflexivity; auto.
    + apply (read_raises mem pc 4) in H. subst e.
      exists 4. split; [reflexivity | auto].
Qed.

(** In the memory of the scenarios: the four bytes at 0x1002 are
    00 00 13 05, low bits 00, length 2; the four bytes at 0x1004 are
    13 05 05 00, low bits 11, length 4; nothing is mapped at 0x2000,
    length 4. *)
Lemma instruction_length_inference_witness :
  QEMUVCPU._get_instruction_length Spec.bank8 4098 = Ok 2
  /\ QEMUVCPU._get_instruction_length Spec.bank8 4100 = Ok 4
  /\ QEMUVCPU._get_instruction_length Spec.bank8 8192 = Ok 4.
Proof.
  split; [|split].
  - apply (instruction_length_inference Spec.bank8 4098)
      with (bs := [x00; x00; x13; x05]); reflexivity.
  - apply (instruction_length_inference Spec.bank8 4100)
      with (bs := [x13; x05; x05; x00]);
      [reflexivity | vm_compute; discriminate].
  - apply (instruction_length_inference Spec.bank8 8192).
    intros (rng & data & [Heq|[]] & Hr).
    injection Heq as <- <-. vm_compute in Hr. discriminate.
Defined.

End MemoryProps.

(* ------------------------------------------------------------------ *)
(** ** Properties of the hardware breakpoints *)

Module BreakpointProps.

Import QEMUVCPU.

(** Equality of ranges is equality of the pairs [(addr, len)] when one
    of them is not empty. *)
Lemma range_eqb_nonempty (a l : Z) (r : range) :
  0 < l ->
  (range_eqb (mkRange a (a + l)) r = true
   <-> start r = a /\ stop r - start r = l).
Proof.
  intro Hl. unfold range_eqb, range_len; cbn [start stop].
  destruct (Z.max 0 (a + l - a) =? Z.max 0 (stop r - start r)) eqn:E1;
    cbn [negb].
  - apply Z.eqb_eq in E1.
    replace (Z.max 0 (a + l - a) =? 0) with false
      by (symmetry; apply Z.eqb_neq; lia).
    split; [intro H; apply Z.eqb_eq in H | intros [H _]; apply Z.eqb_eq];
      lia.
  - apply Z.eqb_neq in E1. split; [discriminate | lia].
Qed.

Lemma range_eqb_sym (r1 r2 : range) : range_eqb r1 r2 = range_eqb r2 r1.
Proof.
  unfold range_eqb.
  rewrite (Z.eqb_sym (range_len r1)), (Z.eqb_sym (start r1)).
  destruct (range_len r2 =? range_len r1) eqn:E; cbn [negb]; [|reflexivity].
  apply Z.eqb_eq in E. rewrite E. reflexivity.
Qed.

Lemma list_remove_none (x : range) (l : list range) :
  list_remove x l = None <-> existsb (range_eqb x) l = false.
Proof.
  induction l as [|y rest IH]; cbn [list_remove existsb].
  - split; reflexivity.
  - rewrite (range_eqb_sym x y). destruct (range_eqb y x); cbn [orb].
    + split; discriminate.
    + rewrite <- IH. destruct (list_remove x rest); split; congruence.
Qed.

(** For a breakpoint of positive length the two operations fail as
    the specification says: adding raises Duplicate exactly when the
    same [(addr, len)] is active, removing raises Missing exactly when
    it is not. *)
Lemma hw_break_nonempty (addr length : Z) (v : t) :
  0 < length ->
  (fst (add_hw_break addr length v) = Raise Duplicate
   <-> In (mkRange addr (addr + length)) (_hwbreaks v))
  /\ (fst (del_hw_break addr length v) = Raise Missing
      <-> ~ In (mkRange addr (addr + length)) (_hwbreaks v)).
Proof.
  intro Hl.
  assert (Hex : existsb (range_eqb (mkRange addr (addr + length)))
                  (_hwbreaks v) = true
                <-> In (mkRange addr (addr + length)) (_hwbreaks v)).
  { rewrite existsb_exists. split.
    - intros (r & Hin & Hr). apply range_eqb_nonempty in Hr; [|exact Hl].
      destruct r as [s e]; cbn [start stop] in Hr.
      replace (mkRange addr (addr + length)) with (mkRange s e)
        by (f_equal; lia).
      exact Hin.
    - intro Hin. eexists. split; [exact Hin|].
      apply range_eqb_nonempty; cbn [start stop]; lia. }
  unfold add_hw_break, del_hw_break. split.
  - destruct (existsb _ (_hwbreaks v)) eqn:E; cbn [fst].
    + split; [intros _; apply Hex; reflexivity | reflexivity].
    + split; [discriminate|]. intro H. apply Hex in H. discriminate.
  - destruct (list_remove _ (_hwbreaks v)) eqn:E; cbn [fst].
    + split; [discriminate|]. intro H. exfalso. apply H, Hex.
      destruct (existsb _ (_hwbreaks v)) eqn:E2; [reflexivity|].
      apply list_remove_none in E2. congruence.
    + split; [|reflexivity]. intros _ H. apply Hex in H.
      apply list_remove_none in E. congruence.
Qed.

End BreakpointProps.

(* ------------------------------------------------------------------ *)
(** ** Properties of the server *)

Module ServerProps.

Import QEMUGDBReplay.

(** *** Reading memory *)

Lemma do_m_state (payload : string) (s : t) : snd (_do_m payload s) = s.
Proof.
  unfold _do_m. destruct (decode payload); [|reflexivity].
  destruct (parse_mem_args a) as [[addr n]|]; [|reflexivity].
  destruct (QEMUMemoryController.read _ _ _) as [|e]; [reflexivity|].
  destruct (is_IndexError e); reflexivity.
Qed.

(** The text of a blob is never the error reply: it starts with a hex
    digit in lower case, or is empty. *)
Lemma byte_text_head (b : byte) :
  match format_02x (Z.of_N (Byte.to_N b)) with
  | String c _ => negb (Ascii.eqb c "E")
  | EmptyString => false
  end = true.
Proof. destruct b; vm_compute; reflexivity. Qed.

Lemma hexlify_not_E01 (bs : list byte) : hexlify bs <> "E01".
Proof.
  destruct bs as [|b rest]; [discriminate|].
  cbn [hexlify]. pose proof (byte_text_head b) as H.
  destruct (format_02x (Z.of_N (Byte.to_N b))) as [|c s']; [discriminate|].
  cbn [String.append]. intro Heq. injection Heq as Hc _.
  subst c. discriminate.
Qed.

(** C9: with banks that do not overlap and a count [0 <= n], a read
    at an address held by a bank returns the bytes of that bank from
    [addr - base], at most [n] of them (fewer when the bank ends), and
    that bank is the only one holding the address; a read raises only
    NotMapped, and exactly when no bank holds the address; the [m]
    command replies [E01] exactly in that case, the text of the bytes
    otherwise, and leaves the server, its banks included, as it
    was. *)
Theorem read_slice (banks : QEMUMemoryController.t) (addr n : Z)
    (Hno : Spec.no_overlap banks) (Hn : 0 <= n) :
  (forall rng data,
     In (rng, data) banks -> in_range addr rng = true ->
     QEMUMemoryController.read banks addr n
       = Ok (firstn (Z.to_nat n) (skipn (Z.to_nat (addr - start rng)) data))
     /\ (forall rng' data', In (rng', data') banks ->
           in_range addr rng' = true -> (rng', data') = (rng, data)))
  /\ (forall bs, QEMUMemoryController.read banks addr n = Ok bs ->
        len bs <= n /\ Spec.mapped banks addr)
  /\ (forall e, QEMUMemoryController.read banks addr n = Raise e ->
        e = NotMapped)
  /\ (QEMUMemoryController.read banks addr n = Raise NotMapped
      <-> ~ Spec.mapped banks addr)
  /\ (forall s payload text,
        _memctrl s = banks ->
        decode payload = Ok text -> parse_mem_args text = Ok (addr, n) ->
        snd (_do_m payload s) = s
        /\ (fst (_do_m payload s) = Ok (Some "E01")
            <-> ~ Spec.mapped banks addr)
        /\ (forall bs, QEMUMemoryController.read banks addr n = Ok bs ->
              fst (_do_m payload s) = Ok (Some (hexlify bs)))).
Proof.
  pose proof (MemoryProps.read_raises banks addr n) as [Hr1 Hr2].
  split; [|split; [|split; [|split]]].
  - intros rng data Hin Hr.
    destruct (MemoryProps.read_bank banks addr n rng data Hno Hin Hr)
      as [H1 H2].
    split; [|exact H2]. rewrite H1.
    rewrite MemoryProps.py_slice_nonneg; [reflexivity | | exact Hn].
    unfold in_range in Hr. apply andb_prop in Hr as [Hr _].
    apply Z.leb_le in Hr. lia.
  - intros bs H. split; [|eapply MemoryProps.read_ok_mapped; exact H].
    destruct (MemoryProps.read_ok_mapped banks addr n bs H)
      as (rng & data & Hin & Hr).
    destruct (MemoryProps.read_bank banks addr n rng data Hno Hin Hr)
      as [H1 _].
    rewrite H1 in H. injection H as <-.
    apply MemoryProps.py_slice_length; [|exact Hn].
    unfold in_range in Hr. apply andb_prop in Hr as [Hr _].
    apply Z.leb_le in Hr. lia.
  - exact Hr1.
  - exact Hr2.
  - intros s payload text Hm Hd Hp. split; [apply do_m_state|].
    unfold _do_m. rewrite Hd, Hp, Hm.
    destruct (QEMUMemoryController.read banks addr n) as [bs|e] eqn:H.
    + cbn [fst]. split.
      * split.
        -- intro Heq. injection Heq as Heq.
           exfalso. exact (hexlify_not_E01 bs Heq).
        -- intro Hnm. exfalso. apply Hnm.
           eapply MemoryProps.read_ok_mapped; exact H.
      * intros bs' Heq. injection Heq as <-. reflexivity.
    + rewrite (Hr1 e eq_refl). cbn [is_IndexError NotMapped fst]. split.
      * split; [|reflexivity]. intros _. apply Hr2.
        rewrite (Hr1 e eq_refl). reflexivity.
      * discriminate.
Qed.

(** The reads of the scenarios: [m1000,4] is served by the bank at
    0x1000, [m2000,4] is not mapped. *)
Lemma read_slice_witness :
  QEMUMemoryController.read Spec.bank8 4096 4 = Ok [x17; x05; x00; x00]
  /\ fst (_do_m "1000,4" Spec.server) = Ok (Some "17050000")
  /\ fst (_do_m "2000,4" Spec.server) = Ok (Some "E01").
Proof.
  assert (Hno : Spec.no_overlap Spec.bank8).
  { cbn. split; [intros ? ? ? []|exact I]. }
  assert (Hun : ~ Spec.mapped Spec.bank8 8192).
  { intros (rng & data & [Heq|[]] & Hr).
    injection Heq as <- <-. vm_compute in Hr. discriminate. }
  assert (H4 : 0 <= 4) by lia.
  destruct (read_slice Spec.bank8 4096 4 Hno H4) as (H1 & _ & _ & _ & H5).
  destruct (read_slice Spec.bank8 8192 4 Hno H4) as (_ & _ & _ & _ & H6).
  destruct (H1 (mkRange 4096 4104)
              [x17; x05; x00; x00; x13; x05; x05; x00]
              (or_introl eq_refl) eq_refl) as [Hread _].
  assert (Hmem : _memctrl Spec.server = Spec.bank8)
    by (vm_compute; reflexivity).
  assert (Hd1 : decode "1000,4" = Ok "1000,4") by (vm_compute; reflexivity).
  assert (Hp1 : parse_mem_args "1000,4" = Ok (4096, 4))
    by (vm_compute; reflexivity).
  assert (Hd2 : decode "2000,4" = Ok "2000,4") by (vm_compute; reflexivity).
  assert (Hp2 : parse_mem_args "2000,4" = Ok (8192, 4))
    by (vm_compute; reflexivity).
  destruct (H5 Spec.server "1000,4" "1000,4" Hmem Hd1 Hp1) as (_ & _ & Hm1).
  destruct (H6 Spec.server "2000,4" "2000,4" Hmem Hd2 Hp2) as (_ & Hm2 & _).
  split; [|split].
  - rewrite Hread. vm_compute. reflexivity.
  - rewrite (Hm1 _ Hread). vm_compute. reflexivity.
  - apply Hm2. exact Hun.
Defined.

(** [int] on text strips the white space 0x09 to 0x0d and 0x20 only: a
    field that ends with the separator 0x1c is no number, and the
    [ValueError] escapes [_do_m]; a field written with full-width
    digits is read as its value. *)
Lemma mem_args_text :
  fst (_do_m (String.append "1000" (String (chr 28) ",4")) Spec.server)
    = Raise invalid_literal
  /\ parse_mem_args
       (str (map chr [239; 188; 145; 239; 188; 144; 44; 52])) = Ok (16, 4).
Proof. split; vm_compute; reflexivity. Qed.

(** *** Checksums *)

(** Whatever the checksum received, the request is dispatched: the
    acknowledgement is the only thing the checksum decides. *)
Lemma ack_state (req : string) (crc : Z) (s : t) :
  ack req crc s = s
  \/ ack req crc s = conn_send "-" s
  \/ ack req crc s = conn_send "+" s.
Proof.
  unfold ack. destruct (_no_ack s); cbn [negb]; [left; reflexivity|].
  destruct (Z.land (byte_sum req) 255 =? crc); cbn [negb]; auto.
Qed.

(** C2 fails on the code: the frame [$?#00] carries a wrong checksum
    (the sum of its payload is 0x3f); the server, in ack mode, sends
    [-] and then the reply [S00] of the handler of [?].  The frame
    [$Hg0#00], wrong too, is answered [-] then [OK], and its handler
    has selected hart 0. *)
Theorem bad_checksum_dispatched :
  _no_ack Spec.server = false
  /\ Z.land (byte_sum "?") 255 = 63
  /\ fst (serve_recv "$?#00" "" Spec.server) = Ok ""
  /\ sent (snd (serve_recv "$?#00" "" Spec.server)) = ["-"; "$S00#b3"]
  /\ sent (snd (serve_recv "$Hg0#00" "" Spec.server)) = ["-"; "$OK#9a"]
  /\ _thread_id Spec.server = None
  /\ _thread_id (snd (serve_recv "$Hg0#00" "" Spec.server)) = Some 0.
Proof. repeat split; vm_compute; reflexivity. Qed.

(** *** The selected hart *)

(** Loading a trace leaves [_thread_id] as it was. *)
Lemma load_thread_id (lines : list string) (s : t) :
  _thread_id (snd (load lines s)) = _thread_id s.
Proof.
  unfold load. destruct (load_lines lines (_vcpus s)) as [vs|e];
    [|reflexivity].
  destruct vs; reflexivity.
Qed.

(** With no hart selected, the commands that look up the selected
    hart raise [KeyError], whatever trace and memory are loaded. *)
Lemma no_thread_raises (s : t) (cmd : string) :
  _thread_id s = None ->
  In cmd ["s"; "bs"; "g"; "c"; "bc"; "Z1,1006,2"; "z1,1006,2"] ->
  _handle_request cmd s = (Raise KeyError, s).
Proof.
  intros Ht Hin. destruct s as [xl tid sel conn noack vcpus mem].
  cbn [_thread_id] in Ht. subst tid.
  cbn [In] in Hin.
  repeat (destruct Hin as [<-|Hin]; [vm_compute; reflexivity|]).
  destruct Hin.
Qed.

(** C4 fails on the code: after the trace of the scenarios is loaded
    the smallest hart id is 0 but no hart is selected, and each of the
    commands [s], [bs], [g], [c], [bc], [Z] and [z] raises [KeyError];
    the serving loop lets it escape after the acknowledgement. *)
Theorem unselected_hart_raises :
  min_key (_vcpus Spec.server) = Ok 0
  /\ _thread_id Spec.server = None
  /\ Forall (fun cmd =>
               _handle_request cmd Spec.server = (Raise KeyError, Spec.server))
       ["s"; "bs"; "g"; "c"; "bc"; "Z1,1006,2"; "z1,1006,2"]
  /\ fst (_serve [frame "s"] "" Spec.server) = Raise KeyError
  /\ sent (snd (_serve [frame "s"] "" Spec.server)) = ["+"].
Proof.
  split; [vm_compute; reflexivity|]. split; [vm_compute; reflexivity|].
  split; [|split; vm_compute; reflexivity].
  repeat constructor; vm_compute; reflexivity.
Qed.

(** *** Capabilities *)

(** The capabilities echoed are those that occur in ["hwbreak+"] as a
    substring. *)
Lemma supported_caps_spec (caps : list string) (cap : string) :
  In cap (supported_caps caps)
  <-> In cap caps /\ py_in cap "hwbreak+" = true.
Proof.
  unfold supported_caps.
  exact (filter_In (fun c => py_in c "hwbreak+") cap caps).
Qed.

(** C5 fails on the code: the tokens [break+] and [hw] are not the
    token [hwbreak+], and the server echoes them; a query without
    capabilities echoes the empty token, which leaves a [;] at the end
    of the reply. *)
Theorem supported_substring :
  fst (_do_query_supported "multiprocess+;break+;hw;hwbreak+" Spec.server)
    = Ok (Some
        "PacketSize=ff0;ReverseStep+;ReverseContinue+;break+;hw;hwbreak+")
  /\ fst (_do_query_supported "" Spec.server)
     = Ok (Some "PacketSize=ff0;ReverseStep+;ReverseContinue+;")
  /\ sent (snd (_handle_request "qSupported:break+" Spec.server))
     = ["$PacketSize=ff0;ReverseStep+;ReverseContinue+;break+#fc"].
Proof. repeat split; vm_compute; reflexivity. Qed.

(** *** Breakpoints on the wire *)

(** C6 fails on the code for empty ranges: with the breakpoint
    [(0x1000, 0)] active and none with the pair [(0x2000, 0)], adding
    [(0x2000, 0)] raises Duplicate and removing [(0x2000, 0)] succeeds,
    removing the breakpoint at 0x1000; on the wire, [Z1,1000,0] is
    answered [OK] and [Z1,2000,0] is answered [E02]. *)
Theorem empty_breakpoints_collide :
  let v := Spec.vcpu_at 0 [mkRange 4096 4096] in
  ~ In (mkRange 8192 (8192 + 0)) (QEMUVCPU._hwbreaks v)
  /\ QEMUVCPU.add_hw_break 8192 0 v = (Raise Duplicate, v)
  /\ QEMUVCPU.del_hw_break 8192 0 v = (Ok tt, Spec.vcpu_at 0 [])
  /\ sent (snd (_serve [frame "Hg0"; frame "Z1,1000,0"; frame "Z1,2000,0"]
                  "" Spec.server))
     = ["+"; "$OK#9a"; "+"; "$OK#9a"; "+"; "$E02#a7"].
Proof.
  cbv zeta. split; [|repeat split; vm_compute; reflexivity].
  intros [H|[]]. discriminate.
Qed.

(** The replies of the scenario of the specification for a breakpoint
    of positive length: [OK], [E02] for the duplicate, [OK] for the
    removal, [E02] for the second removal. *)
Lemma duplicate_breakpoint_scenario :
  sent (snd (_serve [frame "Hg0"; frame "Z1,1006,2"; frame "Z1,1006,2";
                     frame "z1,1006,2"; frame "z1,1006,2"]
               "" Spec.server))
  = ["+"; "$OK#9a"; "+"; "$OK#9a"; "+"; "$E02#a7"; "+"; "$OK#9a";
     "+"; "$E02#a7"].
Proof. vm_compute; reflexivity. Qed.

End ServerProps.


(* ------------------------------------------------------------------ *)
(** ** Further properties of the vCPU *)

Module ReplayProps.

Import QEMUVCPU.

(** The length probe always answers, 2 or 4. *)
Lemma get_instruction_length_ok (mem : QEMUMemoryController.t) (p : Z) :
  exists l, _get_instruction_length mem p = Ok l /\ (l = 2 \/ l = 4).
Proof.
  unfold _get_instruction_length.
  destruct (QEMUMemoryController.read mem p 4) as [bs|e] eqn:H.
  - destruct (Z.land (int_from_bytes_little bs) 3 =? 0); cbn [negb];
      eexists; split; try reflexivity; auto.
  - apply (MemoryProps.read_raises mem p 4) in H. subst e.
    exists 4. split; [reflexivity | auto].
Qed.

Lemma py_index_in {A : Type} (l : list A) (i : Z) :
  0 <= i < len l ->
  exists a, nth_error l (Z.to_nat i) = Some a /\ py_index l i = Ok a.
Proof.
  intros Hi. unfold py_index. cbv zeta.
  assert (E0 : (i <? 0) = false) by (apply Z.ltb_ge; lia).
  assert (E1 : (len l <=? i) = false) by (apply Z.leb_gt; lia).
  rewrite !E0, E1. cbn [orb].
  destruct (nth_error l (Z.to_nat i)) as [a|] eqn:E.
  - exists a. split; reflexivity.
  - apply nth_error_None in E. unfold len in Hi. lia.
Qed.

Lemma last_as_nth {A : Type} (l : list A) (d : A) :
  last l d = nth (List.length l - 1) l d.
Proof.
  induction l as [|a [|b rest] IH]; try reflexivity.
  change (last (a :: b :: rest) d) with (last (b :: rest) d).
  rewrite IH.
  replace (List.length (a :: b :: rest) - 1)%nat
    with (S (List.length (b :: rest) - 1)) by (cbn [List.length]; lia).
  reflexivity.
Qed.

Lemma py_index_last {A : Type} (l : list A) (d : A) :
  l <> [] -> py_index l (-1) = Ok (last l d).
Proof.
  intro Hne. unfold py_index. cbn [Z.ltb Z.compare].
  assert (Hl : 0 < len l).
  { destruct l; [congruence|]. unfold len; cbn [List.length]; lia. }
  assert (E0 : (-1 + len l <? 0) = false) by (apply Z.ltb_ge; lia).
  assert (E1 : (len l <=? -1 + len l) = false) by (apply Z.leb_gt; lia).
  cbv zeta. rewrite !E0, E1. cbn [orb].
  replace (Z.to_nat (-1 + len l)) with (List.length l - 1)%nat
    by (unfold len; lia).
  destruct (nth_error l (List.length l - 1)) as [a|] eqn:E.
  - f_equal. rewrite <- (nth_error_nth l (List.length l - 1) d E).
    symmetry. apply last_as_nth.
  - apply nth_error_None in E. unfold len in Hl. lia.
Qed.

(** The value of [pc] on a trace that is not empty. *)
Lemma pc_value (mem : QEMUMemoryController.t) (v : t)
    (Hne : _seq v <> []) (Hx : 0 <= _xpos v) :
  exists p,
    pc mem v = Ok p
    /\ (_xpos v < len (_seq v) ->
        exists e, nth_error (_seq v) (Z.to_nat (_xpos v)) = Some e
                  /\ p = fst e)
    /\ (len (_seq v) <= _xpos v ->
        exists l, _get_instruction_length mem (fst (last (_seq v) (0, "")))
                  = Ok l
                  /\ (l = 2 \/ l = 4)
                  /\ p = fst (last (_seq v) (0, "")) + l).
Proof.
  unfold pc. destruct (_xpos v <? len (_seq v)) eqn:E.
  - apply Z.ltb_lt in E.
    destruct (py_index_in (_seq v) (_xpos v)) as (e & Hn & Hi); [lia|].
    rewrite Hi. cbn [bind]. exists (fst e). split; [reflexivity|].
    split; [intros _; exists e; auto | lia].
  - apply Z.ltb_ge in E.
    rewrite (py_index_last (_seq v) (0, "") Hne). cbn [bind].
    destruct (get_instruction_length_ok mem (fst (last (_seq v) (0, ""))))
      as (l & Hl & Hl2).
    rewrite Hl. cbn [bind]. eexists. split; [reflexivity|].
    split; [lia | intros _; exists l; auto].
Qed.

(** X1: with a trace that is not empty and a cursor that is not
    negative, [pc] raises nothing: below [len(seq)] it is the recorded
    PC at the cursor, from [len(seq)] on it is the last recorded PC plus
    the inferred length, 2 or 4, of the last instruction. *)
Theorem pc_defined (mem : QEMUMemoryController.t) (v : t)
    (Hne : _seq v <> []) (Hx : 0 <= _xpos v) :
  exists p,
    pc mem v = Ok p
    /\ (_xpos v < len (_seq v) ->
        exists e, nth_error (_seq v) (Z.to_nat (_xpos v)) = Some e
                  /\ p = fst e)
    /\ (len (_seq v) <= _xpos v ->
        exists l, _get_instruction_length mem (fst (last (_seq v) (0, "")))
                  = Ok l
                  /\ (l = 2 \/ l = 4)
                  /\ p = fst (last (_seq v) (0, "")) + l).
Proof. exact (pc_value mem v Hne Hx). Qed.

(** On the trace of the scenarios: the PC at cursor 1 is 0x1002; at
    the end position it is 0x1006 plus a length. *)
Lemma pc_defined_witness :
  pc Spec.bank8 (Spec.vcpu_at 1 []) = Ok 4098
  /\ exists p, pc Spec.bank8 (Spec.vcpu_at 3 []) = Ok p
               /\ (p = 4102 + 2 \/ p = 4102 + 4).
Proof.
  split.
  - destruct (pc_defined Spec.bank8 (Spec.vcpu_at 1 []))
      as (p & Hp & H1 & _); [discriminate | vm_compute; discriminate |].
    destruct H1 as (e & He & ->); [vm_compute; reflexivity|].
    vm_compute in He. injection He as <-. exact Hp.
  - destruct (pc_defined Spec.bank8 (Spec.vcpu_at 3 []))
      as (p & Hp & _ & H2); [discriminate | vm_compute; discriminate |].
    destruct H2 as (l & _ & Hl & ->); [vm_compute; discriminate|].
    eexists. split; [exact Hp|].
    change (fst (last (_seq (Spec.vcpu_at 3 [])) (0, ""))) with 4102.
    destruct Hl as [-> | ->]; auto.
Defined.

(** With an empty trace [pc] raises [IndexError] whatever the cursor. *)
Lemma pc_empty_trace (mem : QEMUMemoryController.t) (v : t) :
  _seq v = [] -> exists e, pc mem v = Raise e /\ is_IndexError e = true.
Proof.
  intro He. unfold pc. rewrite He. cbn [len List.length Z.of_nat].
  destruct (_xpos v <? 0) eqn:E.
  - unfold py_index. rewrite E. cbn [len List.length Z.of_nat].
    replace (_xpos v + 0 <? 0) with true by (symmetry; apply Z.ltb_lt;
      apply Z.ltb_lt in E; lia).
    cbn. eexists; split; reflexivity.
  - cbn. eexists; split; reflexivity.
Qed.

(** *** Breakpoints met by [cont] *)

Lemma step_fields (back : bool) (v : t) (r : result unit) (v1 : t) :
  step back v = (r, v1) ->
  _seq v1 = _seq v /\ _hwbreaks v1 = _hwbreaks v.
Proof.
  intro H. pose proof (CursorProps.step_seq back v) as H1.
  pose proof (CursorProps.step_hwbreaks back v) as H2.
  rewrite H in H1, H2. cbn [snd] in *. auto.
Qed.

(** When the loop of [cont] reports a breakpoint, the PC it stopped on
    lies in an active range. *)
Lemma cont_loop_hit (mem : QEMUMemoryController.t) (back : bool) :
  forall (fuel : nat) (last : option Z) (v v' : t),
    cont_loop fuel mem back last v = Some (Ok true, v') ->
    exists p, pc mem v' = Ok p
              /\ existsb (in_range p) (_hwbreaks v') = true
              /\ _hwbreaks v' = _hwbreaks v /\ _seq v' = _seq v.
Proof.
  induction fuel as [|fuel IH]; intros last v v' H; [discriminate|].
  cbn [cont_loop] in H.
  destruct (step back v) as [[u|e] v1] eqn:Hs.
  - destruct (step_fields back v _ v1 Hs) as [Hq Hb].
    destruct (instruction_length mem v1); [|discriminate].
    destruct (pc mem v1) as [p|] eqn:Hp; [|discriminate].
    assert (Hrec : forall l, cont_loop fuel mem back l v1 = Some (Ok true, v')
              -> exists p0, pc mem v' = Ok p0
                   /\ existsb (in_range p0) (_hwbreaks v') = true
                   /\ _hwbreaks v' = _hwbreaks v /\ _seq v' = _seq v).
    { intros l Hl. destruct (IH l v1 v' Hl) as (p0 & H1 & H2 & H3 & H4).
      exists p0. repeat split; congruence. }
    destruct (opt_Z_eqb last p); [eapply Hrec; exact H|].
    destruct (existsb (in_range p) (_hwbreaks v1)) eqn:He;
      [|eapply Hrec; exact H].
    injection H as <-. exists p. auto.
  - destruct (is_RuntimeError e); discriminate.
Qed.

(** X2: when [cont] returns true, the current PC lies in a breakpoint
    range that was active at the call, and the call has changed
    neither the breakpoints nor the trace. *)
Theorem cont_hit_in_breakpoint (mem : QEMUMemoryController.t) (back : bool)
    (addr : option Z) (v v' : t)
    (Hc : cont mem back addr v = Some (Ok true, v')) :
  exists p rng,
    pc mem v' = Ok p
    /\ In rng (_hwbreaks v) /\ in_range p rng = true
    /\ _hwbreaks v' = _hwbreaks v /\ _seq v' = _seq v.
Proof.
  assert (Hloop : forall v1 : t,
            _hwbreaks v1 = _hwbreaks v -> _seq v1 = _seq v ->
            cont_loop (cont_fuel back v1) mem back None v1
              = Some (Ok true, v') ->
            exists p rng,
              pc mem v' = Ok p
              /\ In rng (_hwbreaks v) /\ in_range p rng = true
              /\ _hwbreaks v' = _hwbreaks v /\ _seq v' = _seq v).
  { intros v1 Hb Hq Hl.
    destruct (cont_loop_hit mem back _ None v1 v' Hl)
      as (p & H1 & H2 & H3 & H4).
    apply existsb_exists in H2 as (rng & Hin & Hr).
    exists p, rng. rewrite H3, Hb in Hin.
    repeat split; try congruence; assumption. }
  unfold cont in Hc. destruct addr as [a|]; [|apply (Hloop v); auto].
  destruct (CursorProps.move_to_cases a (negb back) v)
    as [(p & Hm & _)|(e & Hm)]; rewrite Hm in Hc.
  - apply (Hloop (set_xpos p v)); auto.
  - destruct (is_ValueError e); [|discriminate].
    apply (Hloop (set_xpos (len (_seq v)) v)); auto.
Qed.

(** The second scenario: continuing from the start with a breakpoint on
    [0x1006, 0x1008) stops with the PC at 0x1006. *)
Lemma cont_hit_in_breakpoint_witness :
  exists p rng,
    pc Spec.bank8 (Spec.vcpu_at 2 [mkRange 4102 4104]) = Ok p
    /\ In rng [mkRange 4102 4104] /\ in_range p rng = true.
Proof.
  destruct (cont_hit_in_breakpoint Spec.bank8 false None
              (Spec.vcpu_at 0 [mkRange 4102 4104])
              (Spec.vcpu_at 2 [mkRange 4102 4104]))
    as (p & rng & H1 & H2 & H3 & _).
  - vm_compute; reflexivity.
  - exists p, rng. auto.
Defined.

(** *** [cont] without breakpoints *)

Lemma instruction_length_ok (mem : QEMUMemoryController.t) (v : t) :
  _seq v <> [] -> 0 <= _xpos v ->
  exists p l, pc mem v = Ok p /\ instruction_length mem v = Ok l.
Proof.
  intros Hne Hx. destruct (pc_value mem v Hne Hx) as (p & Hp & _).
  destruct (get_instruction_length_ok mem p) as (l & Hl & _).
  exists p, l. split; [exact Hp|].
  unfold instruction_length. rewrite Hp. exact Hl.
Qed.

Lemma set_xpos_twice (a b : Z) (v : t) :
  set_xpos a (set_xpos b v) = set_xpos a v.
Proof. reflexivity. Qed.

Lemma cont_loop_forward_free (mem : QEMUMemoryController.t) :
  forall (fuel : nat) (last : option Z) (v : t),
    _hwbreaks v = [] -> _seq v <> [] -> 0 <= _xpos v ->
    (Z.to_nat (len (_seq v) - _xpos v) < fuel)%nat ->
    cont_loop fuel mem false last v
      = Some (Ok false, set_xpos (Z.max (len (_seq v)) (_xpos v + 1)) v).
Proof.
  induction fuel as [|fuel IH]; intros last v Hb Hne Hx Hf; [lia|].
  cbn [cont_loop]. rewrite CursorProps.step_forward_eq.
  destruct (len (_seq v) <=? _xpos v + 1) eqn:E.
  - apply Z.leb_le in E. cbn. rewrite Z.max_r by lia. reflexivity.
  - apply Z.leb_gt in E. set (v1 := set_xpos (_xpos v + 1) v).
    destruct (instruction_length_ok mem v1) as (p & l & Hp & Hl);
      [exact Hne | subst v1; cbn; lia |].
    rewrite Hl, Hp.
    assert (Hrec : forall l0, cont_loop fuel mem false l0 v1
              = Some (Ok false,
                      set_xpos (Z.max (len (_seq v)) (_xpos v + 1)) v)).
    { intro l0. rewrite (IH l0 v1); try assumption;
        try (subst v1; cbn; lia).
      subst v1. cbn [set_xpos _seq _xpos _regs _hwbreaks].
      rewrite !Z.max_l by lia. reflexivity. }
    destruct (opt_Z_eqb last p); [apply Hrec|].
    replace (_hwbreaks v1) with (@nil range) by (symmetry; exact Hb).
    cbn [existsb]. apply Hrec.
Qed.

Lemma cont_loop_backward_free (mem : QEMUMemoryController.t) :
  forall (fuel : nat) (last : option Z) (v : t),
    _hwbreaks v = [] -> _seq v <> [] -> 0 <= _xpos v ->
    (Z.to_nat (_xpos v) < fuel)%nat ->
    cont_loop fuel mem true last v = Some (Ok false, set_xpos 0 v).
Proof.
  induction fuel as [|fuel IH]; intros last v Hb Hne Hx Hf; [lia|].
  cbn [cont_loop]. rewrite CursorProps.step_backward_eq.
  destruct (0 <? _xpos v) eqn:E.
  - apply Z.ltb_lt in E. set (v1 := set_xpos (_xpos v - 1) v).
    destruct (instruction_length_ok mem v1) as (p & l & Hp & Hl);
      [exact Hne | subst v1; cbn; lia |].
    rewrite Hl, Hp.
    assert (Hrec : forall l0, cont_loop fuel mem true l0 v1
              = Some (Ok false, set_xpos 0 v)).
    { intro l0. rewrite (IH l0 v1); try assumption;
        try (subst v1; cbn; lia). reflexivity. }
    destruct (opt_Z_eqb last p); [apply Hrec|].
    replace (_hwbreaks v1) with (@nil range) by (symmetry; exact Hb).
    cbn [existsb]. apply Hrec.
  - apply Z.ltb_ge in E. cbn.
    replace 0 with (_xpos v) by lia.
    rewrite CursorProps.set_xpos_same. reflexivity.
Qed.

(** X3: with no breakpoint set, a trace that is not empty and a cursor
    that is not negative, [cont] without a resume address reports no
    hit: forward it leaves the cursor at [len(seq)] (one further when it
    started at or past [len(seq)]), backward it leaves the cursor at
    0. *)
Theorem cont_free_run (mem : QEMUMemoryController.t) (v : t)
    (Hb : _hwbreaks v = []) (Hne : _seq v <> []) (Hx : 0 <= _xpos v) :
  cont mem false None v
    = Some (Ok false, set_xpos (Z.max (len (_seq v)) (_xpos v + 1)) v)
  /\ cont mem true None v = Some (Ok false, set_xpos 0 v).
Proof.
  unfold cont. split.
  - apply cont_loop_forward_free; auto; cbn; lia.
  - apply cont_loop_backward_free; auto; cbn; lia.
Qed.

(** The third and fourth scenarios: from the start the forward run
    ends at the end position, and the backward run returns to 0. *)
Lemma cont_free_run_witness :
  cont Spec.bank8 false None (Spec.vcpu_at 0 [])
    = Some (Ok false, Spec.vcpu_at 3 [])
  /\ cont Spec.bank8 true None (Spec.vcpu_at 3 [])
     = Some (Ok false, Spec.vcpu_at 0 []).
Proof.
  split.
  - apply (cont_free_run Spec.bank8 (Spec.vcpu_at 0 []));
      [reflexivity | discriminate | vm_compute; discriminate].
  - apply (cont_free_run Spec.bank8 (Spec.vcpu_at 3 []));
      [reflexivity | discriminate | vm_compute; discriminate].
Defined.

(** *** Adding and removing a breakpoint *)

Lemma range_eqb_refl (r : range) : range_eqb r r = true.
Proof.
  unfold range_eqb. rewrite !Z.eqb_refl. cbn [negb].
  destruct (range_len r =? 0); reflexivity.
Qed.

Lemma list_remove_last (x : range) (l : list range) :
  existsb (range_eqb x) l = false -> list_remove x (l ++ [x]) = Some l.
Proof.
  induction l as [|y rest IH]; cbn [existsb app list_remove]; intro H.
  - rewrite range_eqb_refl. reflexivity.
  - apply orb_false_elim in H as [H1 H2].
    rewrite BreakpointProps.range_eqb_sym, H1, (IH H2). reflexivity.
Qed.

Lemma existsb_last (x : range) (l : list range) :
  existsb (range_eqb x) (l ++ [x]) = true.
Proof.
  rewrite existsb_app. cbn [existsb]. rewrite range_eqb_refl.
  rewrite orb_true_r. reflexivity.
Qed.

(** X4: when [add_hw_break(addr, length)] succeeds, whatever the
    length: the breakpoint was not removable before (Missing), adding
    it again raises Duplicate, and removing it succeeds and restores
    the vCPU as it was before the insertion. *)
Theorem hw_break_round_trip (addr length : Z) (v : t)
    (Hadd : fst (add_hw_break addr length v) = Ok tt) :
  fst (del_hw_break addr length v) = Raise Missing
  /\ add_hw_break addr length (snd (add_hw_break addr length v))
     = (Raise Duplicate, snd (add_hw_break addr length v))
  /\ del_hw_break addr length (snd (add_hw_break addr length v))
     = (Ok tt, v).
Proof.
  unfold add_hw_break in *.
  destruct (existsb (range_eqb (mkRange addr (addr + length)))
              (_hwbreaks v)) eqn:E; [discriminate|].
  cbn [snd]. split; [|split].
  - unfold del_hw_break.
    apply BreakpointProps.list_remove_none in E. rewrite E. reflexivity.
  - cbn [set_hwbreaks _hwbreaks]. rewrite existsb_last. reflexivity.
  - unfold del_hw_break. cbn [set_hwbreaks _hwbreaks].
    rewrite (list_remove_last _ _ E).
    destruct v; reflexivity.
Qed.

(** A breakpoint of length 2 and an empty one on the vCPU of the
    scenarios. *)
Lemma hw_break_round_trip_witness :
  del_hw_break 4102 2 (snd (add_hw_break 4102 2 (Spec.vcpu_at 0 [])))
    = (Ok tt, Spec.vcpu_at 0 [])
  /\ del_hw_break 4096 0 (snd (add_hw_break 4096 0 (Spec.vcpu_at 0 [])))
     = (Ok tt, Spec.vcpu_at 0 []).
Proof.
  split.
  - apply (hw_break_round_trip 4102 2 (Spec.vcpu_at 0 [])). reflexivity.
  - apply (hw_break_round_trip 4096 0 (Spec.vcpu_at 0 [])). reflexivity.
Defined.

End ReplayProps.

(* ------------------------------------------------------------------ *)
(** ** The outcome of [cont] *)

Module ContProps.

Import QEMUVCPU.









End ContProps.


(* ------------------------------------------------------------------ *)
(** ** Further properties of the memory map and of byte encodings *)

Module BankProps.

Import QEMUMemoryController.

(** Equal ranges hold the same addresses. *)
Lemma range_eqb_in_range (r1 r2 : range) (a : Z) :
  range_eqb r1 r2 = true -> in_range a r1 = in_range a r2.
Proof.
  unfold range_eqb, range_len, in_range.
  destruct (Z.max 0 (stop r1 - start r1) =? Z.max 0 (stop r2 - start r2))
    eqn:E1; cbn [negb]; [|discriminate].
  apply Z.eqb_eq in E1.
  destruct (Z.max 0 (stop r1 - start r1) =? 0) eqn:E2.
  - apply Z.eqb_eq in E2. intros _.
    destruct (start r1 <=? a) eqn:A1, (a <? stop r1) eqn:A2,
             (start r2 <=? a) eqn:B1, (a <? stop r2) eqn:B2;
      cbn [andb]; try reflexivity; lia.
  - apply Z.eqb_neq in E2. intro E3. apply Z.eqb_eq in E3.
    destruct (start r1 <=? a) eqn:A1, (a <? stop r1) eqn:A2,
             (start r2 <=? a) eqn:B1, (a <? stop r2) eqn:B2;
      cbn [andb]; try reflexivity; lia.
Qed.

(** Outside the range of the key, a read does not see [dict_set]. *)
Lemma read_dict_set_other (banks : t) (k : range) (v : list byte)
    (a n : Z) :
  in_range a k = false -> read (dict_set banks k v) a n = read banks a n.
Proof.
  intro Hk. induction banks as [|[k' v'] rest IH]; cbn [dict_set read].
  - rewrite Hk. reflexivity.
  - destruct (range_eqb k' k) eqn:E; cbn [read].
    + rewrite (range_eqb_in_range k' k a E), Hk. reflexivity.
    + rewrite IH. reflexivity.
Qed.

(** Inside the range of the key, with no older bank there, a read sees
    the value that [dict_set] stores. *)
Lemma read_dict_set_new (banks : t) (k : range) (v : list byte) (a n : Z) :
  in_range a k = true ->
  (forall rng data, In (rng, data) banks -> in_range a rng = false) ->
  read (dict_set banks k v) a n
    = Ok (py_slice v (a - start k) (a - start k + n)).
Proof.
  intros Hk. induction banks as [|[k' v'] rest IH]; intro Hold;
    cbn [dict_set read].
  - rewrite Hk. reflexivity.
  - assert (Hk' : in_range a k' = false)
      by (apply (Hold k' v'); left; reflexivity).
    destruct (range_eqb k' k) eqn:E.
    + rewrite (range_eqb_in_range k' k a E) in Hk'. congruence.
    + cbn [read]. rewrite Hk'. cbn [negb]. apply IH.
      intros rng data Hin. apply (Hold rng data). right. exact Hin.
Qed.

(** X5: after [add_memory(addr, blob)], a read at an address of the
    new bank that no older bank holds returns the bytes of [blob] from
    that address on; a read at any address outside the new bank gives
    what it gave before, result or NotMapped. *)
Theorem add_memory_read (banks : t) (addr : Z) (blob : list byte)
    (a n : Z) :
  (addr <= a < addr + len blob ->
   (forall rng data, In (rng, data) banks -> in_range a rng = false) ->
   read (add_memory addr blob banks) a n
     = Ok (py_slice blob (a - addr) (a - addr + n)))
  /\ (~ addr <= a < addr + len blob ->
      read (add_memory addr blob banks) a n = read banks a n).
Proof.
  unfold add_memory. split.
  - intros Ha Hold.
    apply (read_dict_set_new banks (mkRange addr (addr + len blob)) blob a n);
      [|exact Hold].
    unfold in_range; cbn [start stop].
    apply andb_true_intro. split; [apply Z.leb_le | apply Z.ltb_lt]; lia.
  - intro Ha. apply read_dict_set_other.
    unfold in_range; cbn [start stop].
    destruct (addr <=? a) eqn:E1; [|reflexivity].
    destruct (a <? addr + len blob) eqn:E2; [|reflexivity].
    apply Z.leb_le in E1. apply Z.ltb_lt in E2. exfalso. apply Ha. lia.
Qed.

(** Loading the eight bytes of the scenarios at 0x1000 into an empty
    map: a read at 0x1004 returns the second word, a read at 0x2000 is
    still not mapped. *)
Lemma add_memory_read_witness :
  read (add_memory 4096 [x17; x05; x00; x00; x13; x05; x05; x00] init) 4100 4
    = Ok [x13; x05; x05; x00]
  /\ read (add_memory 4096 [x17; x05; x00; x00; x13; x05; x05; x00] init)
       8192 4 = Raise NotMapped.
Proof.
  destruct (add_memory_read init 4096
              [x17; x05; x00; x00; x13; x05; x05; x00] 4100 4) as [H1 _].
  destruct (add_memory_read init 4096
              [x17; x05; x00; x00; x13; x05; x05; x00] 8192 4) as [_ H2].
  split.
  - rewrite H1; [reflexivity | vm_compute; split; [discriminate|reflexivity] |].
    intros rng data [].
  - rewrite H2; [reflexivity|]. intros [_ H]. vm_compute in H.
    discriminate H.
Defined.

(** *** Integers as bytes *)

Lemma byte_of_Z_value (z : Z) : Z.of_N (Byte.to_N (byte_of_Z z)) = z mod 256.
Proof.
  unfold byte_of_Z.
  assert (H : 0 <= z mod 256 < 256) by (apply Z.mod_pos_bound; lia).
  destruct (Byte.of_N (Z.to_N (z mod 256))) as [b|] eqn:E.
  - apply Byte.to_of_N in E. rewrite E. lia.
  - apply Byte.of_N_None_iff in E. lia.
Qed.

Lemma le_bytes_length (count : nat) (n : Z) :
  List.length (le_bytes count n) = count.
Proof.
  revert n. induction count as [|c IH]; intro n; cbn [le_bytes List.length];
    [reflexivity | rewrite IH; reflexivity].
Qed.

Lemma le_bytes_value (count : nat) :
  forall n : Z,
    int_from_bytes_little (le_bytes count n) = n mod 256 ^ Z.of_nat count.
Proof.
  induction count as [|c IH]; intro n; cbn [le_bytes int_from_bytes_little].
  - cbn. rewrite Z.mod_1_r. reflexivity.
  - rewrite byte_of_Z_value, IH.
    replace (256 ^ Z.of_nat (S c)) with (256 * 256 ^ Z.of_nat c)
      by (rewrite Nat2Z.inj_succ, Z.pow_succ_r by lia; reflexivity).
    rewrite Z.rem_mul_r; [reflexivity | lia |].
    apply Z.pow_pos_nonneg; lia.
Qed.

Lemma to_bytes_fits (n length : Z) :
  0 <= n < 256 ^ length ->
  0 <= length /\ to_bytes n length = Ok (le_bytes (Z.to_nat length) n).
Proof.
  intro Hn.
  assert (Hl : 0 <= length).
  { destruct (Z_lt_le_dec length 0) as [Hneg|]; [|assumption].
    rewrite Z.pow_neg_r in Hn by exact Hneg. lia. }
  split; [exact Hl|]. unfold to_bytes.
  replace (length <? 0) with false by (symmetry; apply Z.ltb_ge; lia).
  replace (n <? 0) with false by (symmetry; apply Z.ltb_ge; lia).
  replace (256 ^ length <=? n) with false by (symmetry; apply Z.leb_gt; lia).
  reflexivity.
Qed.

(** X6: [n.to_bytes(length, 'little')] succeeds exactly when
    [0 <= n < 256 ** length]; its result has [length] bytes, and
    [int.from_bytes(..., 'little')] gives [n] back; a negative length
    raises [ValueError], and with a length that is not negative a
    number that is negative or too large raises [OverflowError].  The
    stop reply of the server carries the PC of the hart through this
    conversion, on [xlen] bytes: it is [T0520:], the text of the bytes,
    [;] and the suffix, or the exception of the conversion. *)
Theorem to_bytes_round_trip (n length : Z) :
  (forall bs, to_bytes n length = Ok bs ->
     0 <= length /\ 0 <= n < 256 ^ length /\ len bs = length
     /\ int_from_bytes_little bs = n)
  /\ (0 <= n < 256 ^ length -> exists bs, to_bytes n length = Ok bs)
  /\ (length < 0 -> to_bytes n length = Raise negative_length)
  /\ (0 <= length -> ~ 0 <= n < 256 ^ length ->
      to_bytes n length = Raise OverflowError)
  /\ (forall (s : QEMUGDBReplay.t) (v : QEMUVCPU.t) (suffix : string),
        QEMUGDBReplay.xlen s = length ->
        QEMUVCPU.pc (QEMUGDBReplay._memctrl s) v = Ok n ->
        QEMUGDBReplay.stop_reply s v suffix
        = match to_bytes n length with
          | Ok bs =>
              Ok (String.append "T0520:"
                    (String.append (hexlify bs) (String ";" suffix)))
          | Raise e => Raise e
          end).
Proof.
  split; [|split; [|split; [|split]]].
  - intros bs H.
    assert (Hin : 0 <= length /\ 0 <= n < 256 ^ length).
    { unfold to_bytes in H.
      destruct (length <? 0) eqn:E0; [discriminate|].
      destruct (n <? 0) eqn:E1; [discriminate|].
      destruct (256 ^ length <=? n) eqn:E2; [discriminate|].
      apply Z.ltb_ge in E0, E1. apply Z.leb_gt in E2. lia. }
    destruct Hin as [Hl Hn].
    destruct (to_bytes_fits n length Hn) as [_ Hok].
    rewrite Hok in H. injection H as <-.
    split; [exact Hl|]. split; [exact Hn|]. split.
    + unfold len. rewrite le_bytes_length. lia.
    + rewrite le_bytes_value, Z2Nat.id by exact Hl.
      apply Z.mod_small. lia.
  - intro Hn. destruct (to_bytes_fits n length Hn) as [_ Hok].
    eexists. exact Hok.
  - intro Hl. unfold to_bytes.
    replace (length <? 0) with true by (symmetry; apply Z.ltb_lt; lia).
    reflexivity.
  - intros Hl Hn. unfold to_bytes.
    replace (length <? 0) with false by (symmetry; apply Z.ltb_ge; lia).
    destruct (n <? 0) eqn:E1; [reflexivity|].
    destruct (256 ^ length <=? n) eqn:E2; [reflexivity|].
    apply Z.ltb_ge in E1. apply Z.leb_gt in E2. lia.
  - intros s v suffix Hx Hp. unfold QEMUGDBReplay.stop_reply.
    rewrite Hp, Hx. cbn [bind].
    destruct (to_bytes n length) as [bs|e]; cbn [bind]; [|reflexivity].
    reflexivity.
Qed.

(** The PC 0x1002 on four bytes, as in the reply of the first
    scenario; the same PC does not fit one byte. *)
Lemma to_bytes_round_trip_witness :
  (exists bs, to_bytes 4098 4 = Ok bs /\ int_from_bytes_little bs = 4098)
  /\ to_bytes 4098 1 = Raise OverflowError
  /\ QEMUGDBReplay.stop_reply Spec.server (Spec.vcpu_at 1 []) ""
     = Ok "T0520:02100000;".
Proof.
  destruct (to_bytes_round_trip 4098 4) as (H1 & H2 & _ & _ & H5).
  destruct (to_bytes_round_trip 4098 1) as (_ & _ & _ & H4 & _).
  assert (Hr : 0 <= 4098 < 256 ^ 4)
    by (vm_compute; split; [discriminate | reflexivity]).
  destruct (H2 Hr) as (bs & Hbs).
  split; [|split].
  - exists bs. split; [exact Hbs|]. apply (H1 bs Hbs).
  - apply H4; [lia|]. vm_compute. intros [_ H]. discriminate H.
  - rewrite (H5 Spec.server (Spec.vcpu_at 1 []) "");
      [vm_compute; reflexivity | reflexivity | vm_compute; reflexivity].
Defined.

End BankProps.


(* ------------------------------------------------------------------ *)
(** ** Properties of the framing *)

Module FrameProps.

Import QEMUGDBReplay.
Import Wire.

Lemma chars_append (a b : string) :
  chars (String.append a b) = chars a ++ chars b.
Proof.
  induction a as [|c a IH]; cbn [String.append chars list_ascii_of_string app];
    [reflexivity|].
  unfold chars in IH. rewrite IH. reflexivity.
Qed.

Lemma str_chars (s : string) : str (chars s) = s.
Proof. apply string_of_list_ascii_of_string. Qed.

Lemma slen_chars (s : string) : slen s = len (chars s).
Proof.
  unfold slen, len, chars.
  induction s as [|c s IH]; cbn [String.length list_ascii_of_string List.length];
    [reflexivity | lia].
Qed.

Lemma slice_bound_inside (n i : Z) : 0 <= i <= n -> slice_bound n i = i.
Proof.
  intro H. unfold slice_bound.
  replace (i <? 0) with false by (symmetry; apply Z.ltb_ge; lia). lia.
Qed.

Lemma find_at_skip (x : ascii) (l rest : list ascii) :
  Forall (fun c => c <> x) l ->
  forall pos, find_at x (l ++ x :: rest) pos = pos + len l.
Proof.
  induction 1 as [|c l Hc Hl IH]; intro pos; cbn [app find_at].
  - rewrite Ascii.eqb_refl. unfold len; cbn; lia.
  - apply Ascii.eqb_neq in Hc. rewrite Hc, IH.
    unfold len; cbn [List.length]; lia.
Qed.

(** The slice that takes the middle of three lists. *)
Lemma py_slice_middle {A : Type} (l1 l2 l3 : list A) :
  py_slice (l1 ++ l2 ++ l3) (len l1) (len l1 + len l2) = l2.
Proof.
  rewrite MemoryProps.py_slice_nonneg by (unfold len; lia).
  unfold len. rewrite !Nat2Z.id.
  rewrite skipn_app, skipn_all, Nat.sub_diag. cbn [app skipn].
  rewrite firstn_app, firstn_all, Nat.sub_diag. cbn [firstn].
  apply app_nil_r.
Qed.

Lemma py_slice_parts {A : Type} (l l1 l2 l3 : list A) (a b : Z) :
  l = l1 ++ l2 ++ l3 -> a = len l1 -> b = len l1 + len l2 ->
  py_slice l a b = l2.
Proof. intros -> -> ->. apply py_slice_middle. Qed.

Lemma py_slice_beyond {A : Type} (l : list A) (a : Z) :
  len l <= a -> py_slice l a (len l) = [].
Proof.
  intro H. unfold py_slice.
  assert (Hl : 0 <= len l) by (unfold len; lia).
  rewrite (slice_bound_inside (len l) (len l)) by lia.
  unfold slice_bound.
  replace (a <? 0) with false by (symmetry; apply Z.ltb_ge; lia).
  replace (Z.max 0 (Z.min (len l) a)) with (len l) by lia.
  rewrite Z.sub_diag. reflexivity.
Qed.

(** The checksum field that the server writes has two characters and
    reads back, in base 16, as the checksum. *)
Lemma format_02x_reads_back (c : Z) :
  0 <= c < 256 ->
  String.length (format_02x c) = 2%nat /\ int_bytes 16 (format_02x c) = Ok c.
Proof.
  intro Hc.
  assert (Hall : forallb (fun n =>
            Nat.eqb (String.length (format_02x (Z.of_nat n))) 2
            && match int_bytes 16 (format_02x (Z.of_nat n)) with
               | Ok v => v =? Z.of_nat n
               | Raise _ => false
               end) (seq 0 256) = true) by (vm_compute; reflexivity).
  rewrite forallb_forall in Hall.
  specialize (Hall (Z.to_nat c)).
  rewrite Z2Nat.id in Hall by lia.
  assert (Hin : In (Z.to_nat c) (seq 0 256)) by (apply in_seq; lia).
  apply Hall in Hin. apply andb_prop in Hin as [H1 H2].
  apply Nat.eqb_eq in H1. split; [exact H1|].
  destruct (int_bytes 16 (format_02x c)) as [v|]; [|discriminate].
  apply Z.eqb_eq in H2. congruence.
Qed.

Lemma wire_chars (req cc : string) :
  chars (wire req cc) = ["$"%char] ++ chars req ++ ["#"%char] ++ chars cc.
Proof.
  unfold wire. change (chars (String "$" ?x)) with ("$"%char :: chars x).
  rewrite chars_append. reflexivity.
Qed.

Lemma wire_len (req cc : string) :
  slen (wire req cc) = 2 + slen req + slen cc.
Proof.
  rewrite !slen_chars, wire_chars. unfold len.
  rewrite !length_app. cbn [List.length]. lia.
Qed.

Lemma slen_nonneg (s : string) : 0 <= slen s.
Proof. unfold slen; lia. Qed.

(** What [_serve] finds in a buffer that holds one frame. *)
Lemma wire_parts (req cc : string) :
  Forall (fun c => c <> "#"%char) (chars req) ->
  slen cc = 2 ->
  py_find "$" (wire req cc) 0 = 0
  /\ py_find "#" (wire req cc) 0 = 1 + slen req
  /\ str_slice (wire req cc) (0 + 1) (1 + slen req) = req
  /\ str_slice (wire req cc) (1 + slen req + 1) (1 + slen req + 3) = cc
  /\ str_from req (1 + slen req + 3) = "".
Proof.
  intros Hreq Hcc.
  pose proof (slen_nonneg req) as Hr.
  pose proof (wire_len req cc) as Hw.
  assert (Hb : slice_bound (slen (wire req cc)) 0 = 0)
    by (apply slice_bound_inside; lia).
  split; [|split; [|split; [|split]]].
  - unfold py_find. rewrite Hb. reflexivity.
  - unfold py_find. rewrite Hb. cbn [Z.to_nat skipn].
    rewrite wire_chars. cbn [app find_at].
    change (Ascii.eqb "$" "#") with false. cbv iota.
    rewrite (find_at_skip "#" (chars req) (chars cc) Hreq).
    rewrite slen_chars. lia.
  - unfold str_slice.
    rewrite (py_slice_parts (chars (wire req cc)) ["$"%char] (chars req)
               (["#"%char] ++ chars cc));
      [apply str_chars | apply wire_chars | reflexivity |].
    rewrite slen_chars. reflexivity.
  - unfold str_slice.
    rewrite (py_slice_parts (chars (wire req cc))
               (["$"%char] ++ chars req ++ ["#"%char]) (chars cc) []);
      [apply str_chars | | |].
    + rewrite wire_chars, app_nil_r, <- !app_assoc. reflexivity.
    + unfold len. rewrite !length_app. cbn [List.length].
      rewrite slen_chars. unfold len. lia.
    + unfold len. rewrite !length_app. cbn [List.length].
      rewrite !slen_chars in *. unfold len in *. lia.
  - unfold str_from, str_slice. rewrite slen_chars.
    rewrite py_slice_beyond by (rewrite <- slen_chars; lia). reflexivity.
Qed.

(** What [_serve] does with one frame received whole into an empty
    buffer: acknowledge it against its checksum field, then dispatch
    the request, whatever the acknowledgement. *)
Lemma serve_recv_wire (req cc : string) (crc : Z) (s : t) :
  Forall (fun c => c <> "#"%char) (chars req) ->
  slen cc = 2 -> int_bytes 16 cc = Ok crc ->
  serve_recv (wire req cc) "" s
    = match _handle_request req (ack req crc s) with
      | (Raise e, s1) => (Raise e, s1)
      | (Ok _, s1) => (Ok "", s1)
      end.
Proof.
  intros Hreq Hcc Hcrc.
  destruct (wire_parts req cc Hreq Hcc) as (H1 & H2 & H3 & H4 & H5).
  pose proof (slen_nonneg req) as Hr.
  pose proof (wire_len req cc) as Hw.
  unfold serve_recv.
  change (String.eqb (wire req cc) "") with false. cbv iota.
  change (String.append "" (wire req cc)) with (wire req cc).
  cbv zeta. rewrite H1. change (0 <? 0) with false. cbv iota.
  rewrite H2.
  replace (1 + slen req <? 0) with false by (symmetry; apply Z.ltb_ge; lia).
  replace (slen (wire req cc) - (1 + slen req) <? 2) with false
    by (symmetry; apply Z.ltb_ge; lia).
  rewrite H3, H4, Hcrc, H5. reflexivity.
Qed.

Lemma checksum_range (p : string) : 0 <= Z.land (byte_sum p) 255 < 256.
Proof.
  change 255 with (Z.ones 8). rewrite Z.land_ones by lia.
  apply Z.mod_pos_bound. reflexivity.
Qed.

(** X7: a frame received whole into an empty buffer, with a request
    free of [#] and a checksum field of two characters that reads as
    the number [crc] in base 16, is acknowledged (ack mode on) with [+]
    when [crc] is the sum of the request modulo 256 and with [-]
    otherwise; in both cases the request is then dispatched, and the
    buffer is left empty. *)
Theorem serve_recv_one_frame (req cc : string) (crc : Z) (s : t)
    (Hreq : Forall (fun c => c <> "#"%char) (chars req))
    (Hcc : slen cc = 2) (Hcrc : int_bytes 16 cc = Ok crc)
    (Hack : _no_ack s = false) :
  serve_recv (wire req cc) "" s
    = match _handle_request req
              (conn_send (if Z.land (byte_sum req) 255 =? crc
                          then "+" else "-") s) with
      | (Raise e, s1) => (Raise e, s1)
      | (Ok _, s1) => (Ok "", s1)
      end.
Proof.
  rewrite (serve_recv_wire req cc crc s Hreq Hcc Hcrc).
  unfold ack. rewrite Hack. cbn [negb].
  destruct (Z.land (byte_sum req) 255 =? crc); reflexivity.
Qed.

(** The frame [$?#3f] is acknowledged [+] and answered [S00]. *)
Lemma serve_recv_one_frame_witness :
  sent (snd (serve_recv (wire "?" "3f") "" Spec.server))
  = ["+"; "$S00#b3"].
Proof.
  rewrite (serve_recv_one_frame "?" "3f" 63 Spec.server).
  - vm_compute. reflexivity.
  - repeat constructor; discriminate.
  - reflexivity.
  - vm_compute. reflexivity.
  - reflexivity.
Defined.

(** X8: the server reads its own framing: for a payload free of [#],
    the frame that [_send_bytes] builds is [$payload#cc] with [cc] two
    characters that read, in base 16, as the sum of the payload modulo
    256; received by [_serve] (ack mode on) it is acknowledged [+] and
    dispatched as that payload. *)
Theorem frame_round_trip (p : string) (s : t)
    (Hp : Forall (fun c => c <> "#"%char) (chars p))
    (Hack : _no_ack s = false) :
  exists cc,
    frame p = wire p cc
    /\ slen cc = 2
    /\ int_bytes 16 cc = Ok (Z.land (byte_sum p) 255)
    /\ serve_recv (frame p) "" s
       = match _handle_request p (conn_send "+" s) with
         | (Raise e, s1) => (Raise e, s1)
         | (Ok _, s1) => (Ok "", s1)
         end.
Proof.
  destruct (format_02x_reads_back _ (checksum_range p)) as [Hl Hi].
  exists (format_02x (Z.land (byte_sum p) 255)).
  assert (Hs : slen (format_02x (Z.land (byte_sum p) 255)) = 2)
    by (unfold slen; rewrite Hl; reflexivity).
  split; [reflexivity|]. split; [exact Hs|]. split; [exact Hi|].
  change (frame p) with (wire p (format_02x (Z.land (byte_sum p) 255))).
  rewrite (serve_recv_wire p _ _ s Hp Hs Hi).
  unfold ack. rewrite Hack, Z.eqb_refl. reflexivity.
Qed.

(** The frame of [qC], sent back to the server of the scenarios. *)
Lemma frame_round_trip_witness :
  sent (snd (serve_recv (frame "qC") "" Spec.server))
  = ["+"; "$QCNone#24"].
Proof.
  destruct (frame_round_trip "qC" Spec.server) as (cc & _ & _ & _ & H).
  - repeat constructor; discriminate.
  - reflexivity.
  - rewrite H. vm_compute. reflexivity.
Defined.

End FrameProps.


(* ------------------------------------------------------------------ *)
(** ** Properties of the session: loading, thread selection, kill *)

Module SessionProps.

Import QEMUGDBReplay.
Import TraceLog.

(** *** The dict of vCPUs *)

Lemma dict_get_put_same (d : list (Z * QEMUVCPU.t)) (k : Z) (v : QEMUVCPU.t) :
  dict_get (dict_put d k v) k = Some v.
Proof.
  induction d as [|[k' v'] rest IH]; cbn [dict_put dict_get].
  - rewrite Z.eqb_refl. reflexivity.
  - destruct (k' =? k) eqn:E; cbn [dict_get]; rewrite E; auto.
Qed.




(** *** Loading *)





(** *** Thread selection *)

Lemma fold_min_spec (ks : list Z) :
  forall k : Z,
    (fold_left Z.min ks k = k \/ In (fold_left Z.min ks k) ks)
    /\ fold_left Z.min ks k <= k
    /\ (forall x, In x ks -> fold_left Z.min ks k <= x).
Proof.
  induction ks as [|a ks IH]; intro k; cbn [fold_left In].
  - split; [left; reflexivity|]. split; [lia | intros x []].
  - destruct (IH (Z.min k a)) as (H1 & H2 & H3). split; [|split].
    + destruct H1 as [H1|H1]; [|right; right; exact H1].
      rewrite H1. destruct (Z.min_spec k a) as [[_ ->]|[_ ->]]; auto.
    + lia.
    + intros x [<-|Hx]; [lia | apply H3; exact Hx].
Qed.

(** [sorted(self._vcpus)[0]] is the smallest hart id. *)
Lemma min_key_spec (d : list (Z * QEMUVCPU.t)) :
  d <> [] ->
  exists k, min_key d = Ok k
            /\ In k (map fst d)
            /\ (forall k', In k' (map fst d) -> k <= k').
Proof.
  intro Hne. unfold min_key.
  destruct d as [|[k0 v0] rest]; [congruence|]. cbn [map fst].
  destruct (fold_min_spec (map fst rest) k0) as (H1 & H2 & H3).
  eexists. split; [reflexivity|]. split.
  - destruct H1 as [-> | H1]; [left; reflexivity | right; exact H1].
  - intros k' [<-|Hk]; [exact H2 | apply H3; exact Hk].
Qed.

Lemma payload_head (op : ascii) (rest : string) :
  str_slice (String op rest) 0 1 = String op ""
  /\ str_from (String op rest) 1 = rest.
Proof.
  unfold str_from, str_slice. split.
  - rewrite (FrameProps.py_slice_parts (chars (String op rest))
               [] [op] (chars rest)); reflexivity.
  - rewrite (FrameProps.py_slice_parts (chars (String op rest))
               [op] (chars rest) []).
    + apply FrameProps.str_chars.
    + cbn [app]. rewrite app_nil_r. reflexivity.
    + reflexivity.
    + rewrite FrameProps.slen_chars. unfold len, chars.
      cbn [list_ascii_of_string List.length]. lia.
Qed.

(** X10: the [H] command with an operation among [G g M m c] and a
    thread id that reads as [tid] in base 16: an id other than -1 that
    names no vCPU is answered [E02] and changes nothing; a positive
    known id is answered [OK] and recorded as the selector, the
    operative hart [_thread_id] staying as it was; an id of -1, or a
    known id that is 0 or negative, is recorded as the selector and
    then, on a server that has at least one hart, is answered [OK] and
    binds the operative hart to the smallest hart id, while on a server
    without any hart (one started without a trace) it raises the
    [IndexError] of [sorted(self._vcpus)[0]]. *)
Theorem select_thread (op : ascii) (rest : string) (tid : Z) (s : t)
    (Hop : In op (chars "GgMmc")) (Htid : int_bytes 16 rest = Ok tid) :
  (tid <> -1 -> dict_has (_vcpus s) tid = false ->
   _do__h (String op rest) s = (Ok (Some "E02"), s))
  /\ (0 < tid -> dict_has (_vcpus s) tid = true ->
      _do__h (String op rest) s
        = (Ok (Some "OK"), set_select_thread_id (Some tid) s))
  /\ (tid <= 0 -> tid = -1 \/ dict_has (_vcpus s) tid = true ->
      (_vcpus s <> [] ->
       exists k,
         _do__h (String op rest) s
           = (Ok (Some "OK"),
              set_thread_id (Some k) (set_select_thread_id (Some tid) s))
         /\ In k (map fst (_vcpus s))
         /\ (forall k', In k' (map fst (_vcpus s)) -> k <= k'))
      /\ (_vcpus s = [] ->
          _do__h (String op rest) s
            = (Raise (IndexError "list index out of range"),
               set_select_thread_id (Some tid) s))).
Proof.
  destruct (payload_head op rest) as [Hh Ht].
  assert (Hin : py_in (String op "") "GgMmc" = true).
  { cbn [chars list_ascii_of_string In] in Hop.
    repeat (destruct Hop as [<-|Hop]; [reflexivity|]). destruct Hop. }
  unfold _do__h. rewrite Hh, Hin, Ht, Htid.
  split; [|split].
  - intros Hne Hd. rewrite Hd.
    replace (tid =? -1) with false by (symmetry; apply Z.eqb_neq; lia).
    reflexivity.
  - intros Hpos Hd. rewrite Hd. cbn [negb andb].
    rewrite andb_false_r.
    replace (tid <=? 0) with false by (symmetry; apply Z.leb_gt; lia).
    reflexivity.
  - intros Hle Hk.
    assert (Hc : negb (tid =? -1) && negb (dict_has (_vcpus s) tid) = false).
    { destruct Hk as [-> | ->]; [reflexivity|].
      cbn [negb]. apply andb_false_r. }
    rewrite Hc.
    replace (tid <=? 0) with true by (symmetry; apply Z.leb_le; lia).
    cbn [_vcpus set_select_thread_id]. split.
    + intro Hne.
      destruct (min_key_spec (_vcpus s) Hne) as (k & Hm & H1 & H2).
      exists k. rewrite Hm. auto.
    + intro He. unfold min_key. rewrite He. reflexivity.
Qed.

(** [Hg0] on the server of the scenarios selects hart 0; [Hg7] names
    no hart; [Hg-1] on a server without a trace raises. *)
Lemma select_thread_witness :
  _thread_id (snd (_do__h "g0" Spec.server)) = Some 0
  /\ _do__h "g7" Spec.server = (Ok (Some "E02"), Spec.server)
  /\ fst (_do__h "g-1" (accept (init None)))
     = Raise (IndexError "list index out of range").
Proof.
  split; [|split].
  - destruct (select_thread "g" "0" 0 Spec.server) as (_ & _ & H).
    + cbn. auto.
    + reflexivity.
    + destruct H as [H _];
        [lia | right; vm_compute; reflexivity |].
      destruct H as (k & Hk & Hin & _); [vm_compute; discriminate|].
      rewrite Hk. cbn [snd _thread_id set_thread_id].
      vm_compute in Hin. destruct Hin as [<-|[]]. reflexivity.
  - destruct (select_thread "g" "7" 7 Spec.server) as (H & _).
    + cbn. auto.
    + reflexivity.
    + apply H; [lia | vm_compute; reflexivity].
  - destruct (select_thread "g" "-1" (-1) (accept (init None)))
      as (_ & _ & H).
    + cbn. auto.
    + reflexivity.
    + destruct H as [_ H]; [lia | left; reflexivity |].
      rewrite H; reflexivity.
Defined.

(** *** The list of threads *)

Lemma insert_sorted_perm (k : Z) (l : list Z) :
  Permutation (insert_sorted k l) (k :: l).
Proof.
  induction l as [|x rest IH]; cbn [insert_sorted]; [reflexivity|].
  destruct (k <=? x); [reflexivity|].
  rewrite IH. apply perm_swap.
Qed.

Lemma insert_sorted_sorted (k : Z) (l : list Z) :
  Sorted Z.le l -> Sorted Z.le (insert_sorted k l).
Proof.
  induction 1 as [|x rest Hs IH Hd]; cbn [insert_sorted].
  - repeat constructor.
  - destruct (k <=? x) eqn:E.
    + apply Z.leb_le in E. repeat constructor; assumption.
    + apply Z.leb_gt in E. constructor; [exact IH|].
      destruct rest as [|y rest]; cbn [insert_sorted].
      * constructor. lia.
      * inversion Hd; subst. destruct (k <=? y); constructor; lia.
Qed.

(** X11: the reply to [qfThreadInfo] lists the hart ids in ascending
    order, each id of the dict of vCPUs once: the list it formats is
    sorted and is a permutation of the keys. *)
Theorem thread_info_sorted (payload : string) (s : t) :
  Sorted Z.le (sorted_keys (_vcpus s))
  /\ Permutation (sorted_keys (_vcpus s)) (map fst (_vcpus s))
  /\ _do_query_fthreadinfo payload s
     = (Ok (Some (String "m"
                    (py_join ";" (map (format_int 16)
                                      (sorted_keys (_vcpus s)))))), s).
Proof.
  unfold sorted_keys. split; [|split; [|reflexivity]].
  - induction (map fst (_vcpus s)) as [|k ks IH]; cbn [fold_right];
      [constructor | apply insert_sorted_sorted; exact IH].
  - induction (map fst (_vcpus s)) as [|k ks IH]; cbn [fold_right];
      [reflexivity|].
    rewrite insert_sorted_perm. constructor. exact IH.
Qed.

(** *** Kill *)

(** X12: on a server with a connection, a request that starts with
    [k], whatever follows, is dispatched to the kill handler; the
    handler returns no reply, so that [_handle_request] has nothing to
    frame and send after it, drops the connection, puts every cursor
    back to 0 and keeps the hart ids, the traces and the breakpoints,
    the selected hart and the memory; the serving loop then stops,
    whatever else was received. *)
Theorem kill_session (s : t) (sent0 : list string) (payload : string)
    (Hc : _conn s = Some sent0) :
  exists s',
    _do_k payload s = (Ok None, s')
    /\ _handle_request (String "k" payload) s = (Ok tt, s')
    /\ _conn s' = None
    /\ _vcpus s'
       = map (fun kv => (fst kv, QEMUVCPU.set_xpos 0 (snd kv))) (_vcpus s)
    /\ _thread_id s' = _thread_id s /\ _memctrl s' = _memctrl s
    /\ (forall datas buf, _serve datas buf s' = (Ok tt, s')).
Proof.
  destruct (payload_head "k" payload) as [Hh Ht].
  assert (Hk : _do_k payload s
               = (Ok None,
                  set_conn None
                    (set_vcpus
                       (map (fun kv => (fst kv, QEMUVCPU.reset (snd kv)))
                            (_vcpus s)) s))).
  { unfold _do_k. cbn [_conn set_vcpus]. rewrite Hc. reflexivity. }
  eexists. split; [exact Hk|]. split.
  - assert (Hcmd : command_name (String "k" payload) 1 = Ok "k")
      by (unfold command_name; rewrite Hh; reflexivity).
    unfold _handle_request. rewrite Hcmd.
    change (handler_of "k") with (Some _do_k).
    unfold call_handler. rewrite Ht, Hk. reflexivity.
  - cbn [_conn set_conn _vcpus set_vcpus _thread_id _memctrl].
    repeat split.
    intros datas buf. destruct datas; reflexivity.
Qed.

(** Killing the session of the scenarios after a forward run. *)
Lemma kill_session_witness :
  exists s',
    _handle_request "k"
      (snd (_serve [frame "Hg0"; frame "c"] "" Spec.server)) = (Ok tt, s')
    /\ _conn s' = None.
Proof.
  destruct (kill_session
              (snd (_serve [frame "Hg0"; frame "c"] "" Spec.server))
              ["+"; "$OK#9a"; "+"; "$S03#b6"] "")
    as (s' & _ & H1 & H2 & _).
  - vm_compute. reflexivity.
  - exists s'. split; assumption.
Defined.

End SessionProps.


(* ------------------------------------------------------------------ *)
(** ** Properties of the ELF payload *)

Module ElfProps.

Import ElfBlob.

(** The loops of [_parse_segments] and [_build_payload] keep in step:
    same first address, and the size counted is the length written. *)
Lemma parse_build_in_step (segs : list Segment) :
  Forall (fun seg => len (seg_data seg) = p_filesz seg /\ p_filesz seg <> 0)
         segs ->
  forall (start : option Z) (size : Z) (buf : list byte),
    len buf = size ->
    fst (fold_left parse_step segs (start, size))
      = fst (fold_left build_step segs (start, buf))
    /\ snd (fold_left parse_step segs (start, size))
       = len (snd (fold_left build_step segs (start, buf))).
Proof.
  induction 1 as [|seg rest [Hd Hz] _ IH]; intros start size buf Hb;
    cbn [fold_left].
  - cbn [fst snd]. auto.
  - apply Z.eqb_neq in Hz. subst size. destruct start as [st|].
    + assert (Hp : parse_step (Some st, len buf) seg
                   = (Some st, (if st + len buf <? p_paddr seg
                                then p_paddr seg - st else len buf)
                               + p_filesz seg))
        by (unfold parse_step; rewrite Hz; reflexivity).
      assert (Hq : build_step (Some st, buf) seg
                   = (Some st, (if st + len buf <? p_paddr seg
                                then buf ++ zeros (p_paddr seg - (st + len buf))
                                else buf) ++ seg_data seg))
        by reflexivity.
      rewrite Hp, Hq. apply IH.
      destruct (st + len buf <? p_paddr seg) eqn:E.
      * apply Z.ltb_lt in E. unfold len, zeros in *.
        rewrite !length_app, repeat_length. lia.
      * unfold len in *. rewrite length_app. lia.
    + assert (Hp : parse_step (None, len buf) seg
                   = (Some (p_paddr seg), len buf + p_filesz seg))
        by (unfold parse_step; rewrite Hz; reflexivity).
      assert (Hq : build_step (None, buf) seg
                   = (Some (p_paddr seg), buf ++ seg_data seg))
        by reflexivity.
      rewrite Hp, Hq. apply IH. unfold len in *. rewrite length_app. lia.
Qed.

Lemma loadable_filesz (segs : list Segment) :
  Forall (fun seg => p_filesz seg <> 0) (_loadable_segments segs).
Proof.
  unfold _loadable_segments. apply Forall_forall. intros seg Hin.
  apply filter_In in Hin as [_ H]. apply andb_prop in H as [_ H].
  apply negb_true_iff, Z.eqb_neq in H. exact H.
Qed.

Lemma insert_seg_in (x y : Segment) (l : list Segment) :
  In y (insert_seg x l) -> y = x \/ In y l.
Proof.
  induction l as [|z rest IH]; cbn [insert_seg].
  - intros [<-|[]]. auto.
  - destruct (p_paddr x <=? p_paddr z).
    + intros [<-|H]; auto.
    + intros [<-|H]; [right; left; reflexivity|].
      destruct (IH H) as [->|H']; [auto | right; right; exact H'].
Qed.

Lemma sorted_segments_in (y : Segment) (segs : list Segment) :
  In y (sorted_segments segs) -> In y segs.
Proof.
  unfold sorted_segments. induction segs as [|x rest IH]; cbn [fold_right];
    [auto|].
  intro H. apply insert_seg_in in H as [->|H]; [left; reflexivity|].
  right. apply IH. exact H.
Qed.

(** X13: when [segment.data()] has [p_filesz] bytes for every segment,
    the payload that [_build_payload] assembles has exactly the size
    that [_parse_segments] computes, so [blob] never raises its size
    mismatch: it returns the payload, or raises the [ValueError] of
    [_parse_segments] when no segment is loadable. *)
Theorem blob_size_agrees (segs : list Segment)
    (Hd : Forall (fun seg => len (seg_data seg) = p_filesz seg) segs) :
  (forall start size, _parse_segments segs = Ok (start, size) ->
     len (_build_payload segs) = size
     /\ blob segs = Ok (_build_payload segs))
  /\ (_loadable_segments segs = [] ->
      blob segs = Raise (ValueError "No loadable segment found"))
  /\ (forall e, blob segs = Raise e ->
      e = ValueError "No loadable segment found").
Proof.
  assert (Hstep : Forall (fun seg => len (seg_data seg) = p_filesz seg
                                     /\ p_filesz seg <> 0)
                         (_loadable_segments segs)).
  { pose proof (loadable_filesz segs) as Hz.
    rewrite Forall_forall in *. intros seg Hin. split; [|apply Hz; exact Hin].
    apply Hd. apply sorted_segments_in.
    unfold _loadable_segments in Hin. apply filter_In in Hin. tauto. }
  destruct (parse_build_in_step _ Hstep None 0 [] eq_refl) as [_ Hsz].
  assert (Hok : forall start size, _parse_segments segs = Ok (start, size) ->
            len (_build_payload segs) = size
            /\ blob segs = Ok (_build_payload segs)).
  { intros start size H. unfold blob. rewrite H. cbn [bind snd].
    unfold _parse_segments in H. unfold _build_payload.
    destruct (fold_left parse_step (_loadable_segments segs) (None, 0))
      as [[st|] sz]; [|discriminate].
    injection H as <- <-. cbn [snd] in Hsz. rewrite <- Hsz.
    rewrite Z.eqb_refl. auto. }
  split; [exact Hok|]. split.
  - intro He. unfold blob, _parse_segments. rewrite He. reflexivity.
  - intros e H. destruct (_parse_segments segs) as [[start size]|e0] eqn:E.
    + destruct (Hok start size eq_refl) as [_ H2]. congruence.
    + unfold blob in H. rewrite E in H. cbn [bind] in H.
      injection H as <-. unfold _parse_segments in E.
      destruct (fold_left parse_step (_loadable_segments segs) (None, 0))
        as [[st|] sz]; [discriminate | congruence].
Qed.

(** Two loadable segments with a gap of two bytes, given out of order,
    and a note segment: the payload has 2 + 2 + 3 bytes. *)
Lemma blob_size_agrees_witness :
  blob [mkSegment "PT_LOAD" 4100 3 [x0a; x0b; x0c];
        mkSegment "PT_NOTE" 0 1 [xff];
        mkSegment "PT_LOAD" 4096 2 [x01; x02]]
  = Ok [x01; x02; x00; x00; x0a; x0b; x0c].
Proof.
  destruct (blob_size_agrees
              [mkSegment "PT_LOAD" 4100 3 [x0a; x0b; x0c];
               mkSegment "PT_NOTE" 0 1 [xff];
               mkSegment "PT_LOAD" 4096 2 [x01; x02]]) as [H _].
  - repeat constructor.
  - destruct (H 4096 7) as [_ H2]; [vm_compute; reflexivity|].
    rewrite H2. vm_compute. reflexivity.
Defined.

End ElfProps.


(* ------------------------------------------------------------------ *)
(** ** Properties of the helpers and of the exit code *)

Module MiscProps.

(** Clearing the [k] low bits. *)
Lemma land_clear_low (a k : Z) :
  0 <= k -> Z.land a (Z.lnot (Z.ones k)) = 2 ^ k * (a / 2 ^ k).
Proof.
  intro Hk. rewrite <- Z.ldiff_land, Z.ldiff_ones_r by exact Hk.
  rewrite Z.shiftl_mul_pow2, Z.shiftr_div_pow2 by exact Hk. lia.
Qed.

Lemma neg_pow2 (k : Z) : - 2 ^ k = Z.lnot (Z.ones k).
Proof. rewrite Z.ones_equiv, Z.lnot_eq_pred_opp. lia. Qed.

(** X14: for a power of two [rnd = 2 ** k], [round_up(value, rnd)] is
    the multiple of [rnd] in [value, value + rnd): the smallest
    multiple of [rnd] that is not below [value]. *)
Theorem round_up_multiple (value k : Z) (Hk : 0 <= k) :
  exists q,
    Misc.round_up value (2 ^ k) = q * 2 ^ k
    /\ value <= Misc.round_up value (2 ^ k) < value + 2 ^ k
    /\ (forall m, value <= m * 2 ^ k -> Misc.round_up value (2 ^ k) <= m * 2 ^ k).
Proof.
  assert (Hp : 0 < 2 ^ k) by (apply Z.pow_pos_nonneg; lia).
  unfold Misc.round_up. rewrite neg_pow2, land_clear_low by exact Hk.
  set (a := value + 2 ^ k - 1).
  pose proof (Z.div_mod a (2 ^ k) ltac:(lia)) as Hdm.
  pose proof (Z.mod_pos_bound a (2 ^ k) Hp) as Hb.
  exists (a / 2 ^ k). split; [lia|]. split; [subst a; lia|].
  intros m Hm.
  assert (Hq : a / 2 ^ k <= m); [|nia].
  apply Z.lt_succ_r. apply (Z.mul_lt_mono_pos_l (2 ^ k)); [exact Hp|].
  subst a. nia.
Qed.

(** Rounding 0x1234 up to a multiple of 0x100. *)
Lemma round_up_multiple_witness : Misc.round_up 4660 256 = 4864.
Proof.
  destruct (round_up_multiple 4660 8) as (q & H1 & H2 & _); [lia|].
  change (2 ^ 8) with 256 in *.
  assert (q = 19) by lia. subst q. exact H1.
Defined.

(** *** The exit code *)

Lemma lor_low_bits (q low : Z) :
  Z.land (Z.ones 12) low = low -> Z.lor (4096 * q) low = 4096 * q + low.
Proof.
  intro Hl. rewrite <- (Z.add_lor_land (4096 * q) low).
  replace (Z.land (4096 * q) low) with 0; [lia|].
  rewrite <- Hl, Z.land_assoc, Z.land_ones by lia.
  change (2 ^ 12) with 4096.
  rewrite Z.mul_comm, Z.mod_mul by lia. reflexivity.
Qed.

(** X15: for a base address in 32 bits, the exit code is 16 bytes: the
    little-endian word [lui a0] whose upper 20 bits are those of the
    address (its low 12 bits are replaced by the opcode 0x537),
    followed by three words that do not depend on the address; for any
    other address nothing is produced ([struct.error]). *)
Theorem bincode_layout (addr : Z) :
  (0 <= addr < 2 ^ 32 ->
   exists w,
     SwExit.bincode addr
       = Some (w ++ [xb7; x05; xde; xc0; x23; x24; xb5; x00;
                     x73; x00; x50; x10])
     /\ len w = 4
     /\ int_from_bytes_little w = 4096 * (addr / 4096) + 1335)
  /\ (~ 0 <= addr < 2 ^ 32 -> SwExit.bincode addr = None).
Proof.
  assert (Hlui : Z.lor (Z.land addr (Z.lnot SwExit.LUI_MASK)) 1335
                 = 4096 * (addr / 4096) + 1335).
  { change SwExit.LUI_MASK with (Z.ones 12).
    rewrite land_clear_low by lia. change (2 ^ 12) with 4096.
    apply lor_low_bits. reflexivity. }
  unfold SwExit.bincode. rewrite Hlui.
  change (SwExit.pack_u32 3235775927) with (Some [xb7; x05; xde; xc0]).
  change (SwExit.pack_u32 11871267) with (Some [x23; x24; xb5; x00]).
  change (SwExit.pack_u32 273678451) with (Some [x73; x00; x50; x10]).
  unfold SwExit.pack_u32.
  pose proof (Z.div_mod addr 4096 ltac:(lia)) as Hdm.
  pose proof (Z.mod_pos_bound addr 4096 ltac:(lia)) as Hb.
  change (2 ^ 32) with 4294967296 in *.
  split.
  - intro Ha.
    assert (Hq : 0 <= addr / 4096 < 1048576) by lia.
    replace (4096 * (addr / 4096) + 1335 <? 0) with false
      by (symmetry; apply Z.ltb_ge; lia).
    replace (4294967296 <=? 4096 * (addr / 4096) + 1335) with false
      by (symmetry; apply Z.leb_gt; lia).
    cbn [orb]. eexists. split; [reflexivity|]. split.
    + unfold len. rewrite BankProps.le_bytes_length. reflexivity.
    + rewrite BankProps.le_bytes_value.
      change (256 ^ Z.of_nat 4) with 4294967296.
      apply Z.mod_small. lia.
  - intro Ha.
    destruct (4096 * (addr / 4096) + 1335 <? 0) eqn:E1; [reflexivity|].
    destruct (4294967296 <=? 4096 * (addr / 4096) + 1335) eqn:E2;
      [reflexivity|].
    apply Z.ltb_ge in E1. apply Z.leb_gt in E2. exfalso. apply Ha. lia.
Qed.

(** The code for the Earl Grey base address 0x411f0000. *)
Lemma bincode_layout_witness :
  SwExit.bincode 1092550656
  = Some [x37; x05; x1f; x41; xb7; x05; xde; xc0; x23; x24; xb5; x00;
          x73; x00; x50; x10].
Proof.
  destruct (bincode_layout 1092550656) as [H _].
  destruct H as (w & Hw & _);
    [vm_compute; split; [discriminate | reflexivity]|].
  rewrite Hw. vm_compute in Hw. injection Hw as Hw.
  rewrite Hw. reflexivity.
Defined.

End MiscProps.


(* ------------------------------------------------------------------ *)
(** ** Numbers written and read back *)

Module NumberProps.

Import Digits.

Lemma digit_char_plain (base d : Z) :
  base <= 16 -> 0 <= d < base ->
  plain_digit base (digit_char d) /\ digit_value (digit_char d) = d.
Proof.
  intros Hb Hd.
  assert (Hall : forallb (fun n =>
      let c := digit_char (Z.of_nat n) in
      (digit_value c =? Z.of_nat n)
      && negb (is_space_str c) && negb (is_space_bytes c)
      && negb (Ascii.eqb c "-") && negb (Ascii.eqb c "+")
      && negb (Ascii.eqb c "_") && negb (Ascii.eqb c "x")
      && negb (Ascii.eqb c "X")) (seq 0 16) = true)
    by (vm_compute; reflexivity).
  rewrite forallb_forall in Hall. specialize (Hall (Z.to_nat d)).
  rewrite Z2Nat.id in Hall by lia. cbv zeta in Hall.
  assert (Hin : In (Z.to_nat d) (seq 0 16)) by (apply in_seq; lia).
  apply Hall in Hin.
  repeat (apply andb_prop in Hin as [Hin ?]).
  apply Z.eqb_eq in Hin.
  unfold plain_digit. rewrite Hin.
  repeat match goal with
         | H : negb _ = true |- _ => apply negb_true_iff in H
         end.
  repeat split; try assumption; lia.
Qed.

(** The value of a list of digits, most significant first. *)
Lemma scan_digits_plain (base : Z) (ds : list ascii) :
  Forall (plain_digit base) ds ->
  forall (acc : Z) (n : nat),
    scan_digits base ds false acc n
    = Some (fold_left (fun a c => a * base + digit_value c) ds acc,
            (n + List.length ds)%nat, []).
Proof.
  induction 1 as [|c ds Hc _ IH]; intros acc n; cbn [scan_digits fold_left].
  - rewrite Nat.add_0_r. reflexivity.
  - destruct Hc as (Hv & _ & _ & _ & _ & Hu & _).
    rewrite Hu. replace (digit_value c <? base) with true
      by (symmetry; apply Z.ltb_lt; lia).
    rewrite IH. cbn [List.length]. rewrite Nat.add_succ_r. reflexivity.
Qed.

(** The digits that [format_int] writes, and their value. *)
Lemma digits_rev_spec (base : Z) :
  2 <= base <= 16 ->
  forall (fuel : nat) (a : Z),
    0 <= a -> (Z.to_nat (Z.log2 a) < fuel)%nat ->
    digits_rev base fuel a <> []
    /\ Forall (plain_digit base) (digits_rev base fuel a)
    /\ fold_right (fun c acc => acc * base + digit_value c) 0
         (digits_rev base fuel a) = a.
Proof.
  intros Hb. induction fuel as [|fuel IH]; intros a Ha Hf; [lia|].
  cbn [digits_rev]. destruct (a <? base) eqn:E.
  - apply Z.ltb_lt in E.
    destruct (digit_char_plain base a) as [Hp Hv]; [lia | lia |].
    split; [discriminate|]. split; [constructor; [exact Hp | constructor]|].
    cbn [fold_right]. rewrite Hv. lia.
  - apply Z.ltb_ge in E.
    pose proof (Z.mod_pos_bound a base ltac:(lia)) as Hm.
    pose proof (Z.div_mod a base ltac:(lia)) as Hdm.
    destruct (digit_char_plain base (a mod base)) as [Hp Hv]; [lia | lia |].
    assert (Hq : 0 <= a / base) by (apply Z.div_pos; lia).
    assert (Hlog : Z.log2 (a / base) < Z.log2 a).
    { assert (H2 : a / base <= Z.shiftr a 1).
      { rewrite Z.shiftr_div_pow2 by lia. change (2 ^ 1) with 2.
        apply Z.div_le_compat_l; lia. }
      apply Z.log2_le_mono in H2.
      rewrite Z.log2_shiftr in H2 by lia.
      assert (1 <= Z.log2 a).
      { change 1 with (Z.log2 2). apply Z.log2_le_mono. lia. }
      lia. }
    destruct (IH (a / base) Hq) as (_ & H2 & H3).
    { pose proof (Z.log2_nonneg (a / base)). lia. }
    split; [discriminate|]. split; [constructor; assumption|].
    cbn [fold_right]. rewrite H3, Hv. lia.
Qed.

Lemma fold_left_rev_digits (base : Z) (l : list ascii) :
  fold_left (fun a c => a * base + digit_value c) (rev l) 0
  = fold_right (fun c acc => acc * base + digit_value c) 0 l.
Proof. rewrite <- fold_left_rev_right, rev_involutive. reflexivity. Qed.

(** [int] reads a list of plain digits as their value. *)
Lemma py_int_digits (space : ascii -> bool) (base : Z) (ds : list ascii) :
  (forall c, plain_digit base c -> space c = false) ->
  ds <> [] -> Forall (plain_digit base) ds ->
  py_int space base (str ds)
  = Ok (fold_left (fun a c => a * base + digit_value c) ds 0).
Proof.
  intros Hsp Hne Hds. unfold py_int, chars, str.
  rewrite list_ascii_of_string_of_list_ascii.
  destruct ds as [|c rest]; [congruence|].
  pose proof (Forall_inv Hds) as Hc.
  pose proof Hc as (_ & _ & _ & Hm & Hpl & Hu & _).
  cbn [drop_while]. rewrite (Hsp c Hc), Hm, Hpl.
  pose proof (scan_digits_plain base (c :: rest) Hds 0 0) as Hscan.
  destruct rest as [|x r].
  - cbv beta iota. rewrite Hu, Hscan.
    cbn [List.length Nat.add drop_while]. f_equal; try lia.
  - pose proof (Forall_inv (Forall_inv_tail Hds)) as Hx.
    destruct Hx as (_ & _ & _ & _ & _ & _ & Hx1 & Hx2).
    rewrite Hx1, Hx2. cbn [orb]. rewrite andb_false_r. cbv beta iota.
    rewrite Hu, Hscan. cbn [List.length Nat.add drop_while]. f_equal; try lia.
Qed.

(** [int] reads a sign before plain digits. *)
Lemma py_int_negative (space : ascii -> bool) (base : Z) (ds : list ascii) :
  (forall c, plain_digit base c -> space c = false) ->
  space "-"%char = false ->
  ds <> [] -> Forall (plain_digit base) ds ->
  py_int space base (String "-" (str ds))
  = Ok (- fold_left (fun a c => a * base + digit_value c) ds 0).
Proof.
  intros Hsp Hsm Hne Hds. unfold py_int, chars, str.
  cbn [list_ascii_of_string]. rewrite list_ascii_of_string_of_list_ascii.
  cbn [drop_while]. rewrite Hsm.
  change (Ascii.eqb "-" "-") with true. cbv beta iota.
  destruct ds as [|c rest]; [congruence|].
  pose proof (Forall_inv Hds) as Hc.
  pose proof Hc as (_ & _ & _ & _ & _ & Hu & _).
  pose proof (scan_digits_plain base (c :: rest) Hds 0 0) as Hscan.
  destruct rest as [|x r].
  - cbv beta iota. rewrite Hu, Hscan.
    cbn [List.length Nat.add drop_while]. f_equal; try lia.
  - pose proof (Forall_inv (Forall_inv_tail Hds)) as Hx.
    destruct Hx as (_ & _ & _ & _ & _ & _ & Hx1 & Hx2).
    rewrite Hx1, Hx2. cbn [orb]. rewrite andb_false_r. cbv beta iota.
    rewrite Hu, Hscan. cbn [List.length Nat.add drop_while]. f_equal; try lia.
Qed.

(** The digits of [format_int], as a list. *)
Lemma format_digits (base a : Z) :
  2 <= base <= 16 -> 0 <= a ->
  let ds := rev (digits_rev base (S (Z.to_nat (Z.log2 a))) a) in
  ds <> [] /\ Forall (plain_digit base) ds
  /\ fold_left (fun x c => x * base + digit_value c) ds 0 = a.
Proof.
  intros Hb Ha ds.
  destruct (digits_rev_spec base Hb (S (Z.to_nat (Z.log2 a))) a Ha)
    as (H1 & H2 & H3); [lia|].
  subst ds. split; [|split].
  - intro H. apply (f_equal (@rev ascii)) in H.
    rewrite rev_involutive in H. exact (H1 H).
  - apply Forall_rev. exact H2.
  - rewrite fold_left_rev_digits. exact H3.
Qed.

Lemma py_int_format (space : ascii -> bool) (base n : Z) :
  2 <= base <= 16 ->
  (forall c, plain_digit base c -> space c = false) ->
  space "-"%char = false ->
  py_int space base (format_int base n) = Ok n.
Proof.
  intros Hb Hsp Hsm. unfold format_int.
  destruct (format_digits base (Z.abs n) Hb (Z.abs_nonneg n))
    as (H1 & H2 & H3).
  destruct (n <? 0) eqn:E.
  - apply Z.ltb_lt in E.
    rewrite (py_int_negative space base _ Hsp Hsm H1 H2), H3. f_equal. lia.
  - apply Z.ltb_ge in E.
    rewrite (py_int_digits space base _ Hsp H1 H2), H3. f_equal. lia.
Qed.

(** *** Text of numbers is ASCII *)

Lemma digit_value_ascii (c : ascii) :
  digit_value c < 37 -> (code c <? 128) = true.
Proof.
  unfold digit_value. intro H. apply Z.ltb_lt.
  destruct ((48 <=? code c) && (code c <=? 57)) eqn:E1.
  - apply andb_prop in E1 as [_ E1]. apply Z.leb_le in E1. lia.
  - destruct ((97 <=? code c) && (code c <=? 122)) eqn:E2.
    + apply andb_prop in E2 as [_ E2]. apply Z.leb_le in E2. lia.
    + destruct ((65 <=? code c) && (code c <=? 90)) eqn:E3; [|lia].
      apply andb_prop in E3 as [_ E3]. apply Z.leb_le in E3. lia.
Qed.

Lemma plain_digits_ascii (base : Z) (ds : list ascii) :
  base <= 16 -> Forall (plain_digit base) ds ->
  forallb (fun c => code c <? 128) ds = true.
Proof.
  intros Hb Hds. apply forallb_forall. intros c Hc.
  rewrite Forall_forall in Hds. destruct (Hds c Hc) as (Hv & _).
  apply digit_value_ascii. lia.
Qed.

Lemma format_int_ascii (base n : Z) :
  2 <= base <= 16 -> is_ascii_text (format_int base n) = true.
Proof.
  intro Hb. unfold format_int, is_ascii_text.
  destruct (format_digits base (Z.abs n) Hb (Z.abs_nonneg n)) as (_ & H2 & _).
  destruct (n <? 0); unfold chars, str; cbn [list_ascii_of_string];
    rewrite list_ascii_of_string_of_list_ascii; cbn [forallb];
    rewrite (plain_digits_ascii base _ (proj2 Hb) H2); reflexivity.
Qed.

Lemma int_str_ascii (base : Z) (s : string) :
  is_ascii_text s = true -> int_str base s = py_int is_space_bytes base s.
Proof. intro H. unfold int_str. rewrite H. reflexivity. Qed.

(** X16: a number written by the formats of the server, [f'{n:x}'] in
    base 16 and [f'{n}'] in base 10, is read back as the same number by
    [int(text, 16)] and [int(text)], from a byte string as from text,
    negative numbers included. *)
Theorem int_reads_format (n : Z) :
  int_bytes 16 (format_int 16 n) = Ok n
  /\ int_str 16 (format_int 16 n) = Ok n
  /\ int_bytes 10 (format_int 10 n) = Ok n
  /\ int_str 10 (format_int 10 n) = Ok n.
Proof.
  rewrite !int_str_ascii by (apply format_int_ascii; lia).
  unfold int_bytes.
  repeat split; apply py_int_format; try lia; try reflexivity;
    intros c Hc; apply Hc.
Qed.

(** [0x] before plain digits, read in base 16. *)
Lemma py_int_prefixed (space : ascii -> bool) (ds : list ascii) :
  (forall c, plain_digit 16 c -> space c = false) ->
  ds <> [] -> Forall (plain_digit 16) ds ->
  py_int space 16 (String "0" (String "x" (str ds)))
  = Ok (fold_left (fun a c => a * 16 + digit_value c) ds 0).
Proof.
  intros Hsp Hne Hds. unfold py_int, chars, str.
  cbn [list_ascii_of_string]. rewrite list_ascii_of_string_of_list_ascii.
  assert (H0 : space "0"%char = false).
  { apply Hsp. apply (digit_char_plain 16 0); lia. }
  cbn [drop_while]. rewrite H0.
  change (Ascii.eqb "0" "-") with false.
  change (Ascii.eqb "0" "+") with false. cbv beta iota.
  change (16 =? 16) with true. change (Ascii.eqb "0" "0") with true.
  change (Ascii.eqb "x" "x") with true. cbn [andb orb]. cbv beta iota.
  destruct ds as [|c rest]; [congruence|].
  pose proof (Forall_inv Hds) as Hc.
  pose proof Hc as (_ & _ & _ & _ & _ & Hu & _).
  rewrite Hu. cbv beta iota. rewrite Hu.
  rewrite (scan_digits_plain 16 (c :: rest) Hds 0 0).
  cbn [List.length Nat.add drop_while]. f_equal; try lia.
Qed.

Lemma prefix_0x (s : string) :
  String.prefix "0x" (String "0" (String "x" s)) = true.
Proof. cbn. destruct s; reflexivity. Qed.

(** X17: [HexInt.parse] reads back what [HexInt.__repr__] writes for a
    number that is not negative, and passes [None] through; the text
    written for a negative number, [0x-...], is refused with a
    [ValueError]. *)
Theorem hexint_round_trip (n : Z) :
  Misc.HexInt_parse None = Ok None
  /\ (0 <= n -> Misc.HexInt_parse (Some (Misc.HexInt_repr n)) = Ok (Some n))
  /\ (n < 0 -> Misc.HexInt_parse (Some (Misc.HexInt_repr n))
               = Raise invalid_literal).
Proof.
  split; [reflexivity|].
  unfold Misc.HexInt_parse, Misc.HexInt_repr.
  change (String.append "0x" ?s) with (String "0" (String "x" s)).
  rewrite prefix_0x.
  rewrite int_str_ascii
    by (pose proof (format_int_ascii 16 n ltac:(lia)) as Ha;
        unfold is_ascii_text in *; cbn [chars list_ascii_of_string forallb];
        exact Ha).
  unfold format_int.
  destruct (format_digits 16 (Z.abs n) ltac:(lia) (Z.abs_nonneg n))
    as (H1 & H2 & H3).
  split; intro Hn.
  - replace (n <? 0) with false by (symmetry; apply Z.ltb_ge; lia).
    rewrite py_int_prefixed; [|intros c Hc; apply Hc | exact H1 | exact H2].
    rewrite H3. cbn [bind]. do 2 f_equal. lia.
  - replace (n <? 0) with true by (symmetry; apply Z.ltb_lt; lia).
    reflexivity.
Qed.

(** The address 0x411f0000 and the number -5. *)
Lemma hexint_round_trip_witness :
  Misc.HexInt_parse (Some (Misc.HexInt_repr 1092550656))
  = Ok (Some 1092550656)
  /\ Misc.HexInt_parse (Some (Misc.HexInt_repr (-5))) = Raise invalid_literal.
Proof.
  split.
  - apply (hexint_round_trip 1092550656). lia.
  - apply (hexint_round_trip (-5)). lia.
Defined.

End NumberProps.


(* ------------------------------------------------------------------ *)
(** ** Commands that work together *)

Module ComposeProps.

Import QEMUGDBReplay.

Lemma dict_has_keys (d : list (Z * QEMUVCPU.t)) (k : Z) :
  dict_has d k = true <-> In k (map fst d).
Proof.
  unfold dict_has. induction d as [|[k' v] rest IH]; cbn [dict_get map fst In].
  - split; [discriminate | intros []].
  - destruct (k' =? k) eqn:E.
    + apply Z.eqb_eq in E. split; auto.
    + apply Z.eqb_neq in E. rewrite IH. split; [auto | intros [H|H]; tauto].
Qed.

(** X18: every hart id that [qfThreadInfo] lists, sent back as the
    list writes it after any of the operations [G g M m c] of the [H]
    command, is answered [OK], never [E01], [E02] or [E03], and is
    recorded in [_select_thread_id].  The hart that the other commands
    operate on, [_thread_id], is left as it was when the id is
    positive: only an id that is 0 or negative sets it, to the smallest
    listed id. *)
Theorem listed_thread_selectable (op : ascii) (k : Z) (s : t)
    (Hop : In op (chars "GgMmc")) (Hk : In k (sorted_keys (_vcpus s))) :
  (0 < k ->
   _do__h (String op (format_int 16 k)) s
     = (Ok (Some "OK"), set_select_thread_id (Some k) s))
  /\ (k <= 0 ->
      exists m,
        _do__h (String op (format_int 16 k)) s
          = (Ok (Some "OK"),
             set_thread_id (Some m) (set_select_thread_id (Some k) s))
        /\ In m (sorted_keys (_vcpus s))
        /\ (forall k', In k' (sorted_keys (_vcpus s)) -> m <= k')).
Proof.
  destruct (SessionProps.payload_head op (format_int 16 k)) as [Hh Ht].
  assert (Hin : py_in (String op "") "GgMmc" = true).
  { cbn [chars list_ascii_of_string In] in Hop.
    repeat (destruct Hop as [<-|Hop]; [reflexivity|]). destruct Hop. }
  assert (Hperm : Permutation (sorted_keys (_vcpus s)) (map fst (_vcpus s))).
  { unfold sorted_keys.
    induction (map fst (_vcpus s)) as [|x xs IH]; cbn [fold_right];
      [reflexivity|].
    rewrite SessionProps.insert_sorted_perm. constructor. exact IH. }
  assert (Hkeys : In k (map fst (_vcpus s)))
    by (apply (Permutation_in _ Hperm); exact Hk).
  assert (Hparse : int_bytes 16 (format_int 16 k) = Ok k).
  { unfold int_bytes. apply NumberProps.py_int_format;
      [lia | intros c Hc; apply Hc | reflexivity]. }
  assert (Hhas : dict_has (_vcpus s) k = true) by (apply dict_has_keys; auto).
  unfold _do__h. rewrite Hh, Hin, Ht, Hparse, Hhas.
  cbn [negb]. rewrite andb_false_r. split; intro Hs.
  - replace (k <=? 0) with false by (symmetry; apply Z.leb_gt; lia).
    reflexivity.
  - replace (k <=? 0) with true by (symmetry; apply Z.leb_le; lia).
    destruct (SessionProps.min_key_spec (_vcpus s)) as (m & Hm & Hm1 & Hm2).
    { intro He. rewrite He in Hkeys. destruct Hkeys. }
    cbn [_vcpus set_select_thread_id]. rewrite Hm.
    exists m. split; [reflexivity|]. split.
    + apply (Permutation_in _ (Permutation_sym Hperm)). exact Hm1.
    + intros k' Hk'. apply Hm2. apply (Permutation_in _ Hperm). exact Hk'.
Qed.

(** Harts 0 and 1 of a log with two harts: [Hg1] is answered [OK] and
    leaves the operative hart unset, [Hg0] binds it to hart 0. *)
Lemma listed_thread_selectable_witness :
  let s := set_vcpus [(0, Spec.vcpu_at 0 []); (1, Spec.vcpu_at 0 [])]
             Spec.server in
  (_do__h "g1" s = (Ok (Some "OK"), set_select_thread_id (Some 1) s)
   /\ _thread_id (snd (_do__h "g1" s)) = None)
  /\ fst (_do__h "g0" s) = Ok (Some "OK").
Proof.
  cbv zeta. split.
  - destruct (listed_thread_selectable "g" 1
                (set_vcpus [(0, Spec.vcpu_at 0 []); (1, Spec.vcpu_at 0 [])]
                   Spec.server)) as [H _].
    + cbn. auto.
    + vm_compute. auto.
    + change (format_int 16 1) with "1" in H.
      rewrite (H ltac:(lia)). split; reflexivity.
  - destruct (listed_thread_selectable "g" 0
                (set_vcpus [(0, Spec.vcpu_at 0 []); (1, Spec.vcpu_at 0 [])]
                   Spec.server)) as [_ H].
    + cbn. auto.
    + vm_compute. auto.
    + destruct (H ltac:(lia)) as (m & Hm & _).
      change (format_int 16 0) with "0" in Hm. rewrite Hm. reflexivity.
Defined.

(** *** A step forward and a step back *)

Lemma dict_put_same (d : list (Z * QEMUVCPU.t)) (k : Z) (v : QEMUVCPU.t) :
  dict_get d k = Some v -> dict_put d k v = d.
Proof.
  induction d as [|[k' v'] rest IH]; cbn [dict_get dict_put]; [discriminate|].
  destruct (k' =? k) eqn:E.
  - intro H. injection H as <-. reflexivity.
  - intro H. rewrite (IH H). reflexivity.
Qed.

Lemma dict_put_twice (d : list (Z * QEMUVCPU.t)) (k : Z) (v1 v2 : QEMUVCPU.t) :
  dict_put (dict_put d k v1) k v2 = dict_put d k v2.
Proof.
  induction d as [|[k' v'] rest IH]; cbn [dict_put].
  - rewrite Z.eqb_refl. reflexivity.
  - destruct (k' =? k) eqn:E; cbn [dict_put]; rewrite E;
      [reflexivity | rewrite IH; reflexivity].
Qed.

Lemma store_vcpu_back (k : Z) (v v1 : QEMUVCPU.t) (s : t) :
  dict_get (_vcpus s) k = Some v ->
  store_vcpu k v (store_vcpu k v1 s) = s.
Proof.
  intro H. unfold store_vcpu. cbn [_vcpus set_vcpus].
  rewrite dict_put_twice, (dict_put_same _ _ _ H). destruct s; reflexivity.
Qed.

(** The stop reply on a recorded instruction whose PC fits the address
    width. *)
Lemma stop_reply_inside (s : t) (v : QEMUVCPU.t) (e : Z * string) :
  0 <= QEMUVCPU._xpos v ->
  nth_error (QEMUVCPU._seq v) (Z.to_nat (QEMUVCPU._xpos v)) = Some e ->
  0 <= fst e < 256 ^ xlen s ->
  stop_reply s v ""
  = Ok ("T0520:" +++ hexlify (le_bytes (Z.to_nat (xlen s)) (fst e)) +++ ";").
Proof.
  intros Hx Hn Hpc. unfold stop_reply, QEMUVCPU.pc.
  assert (Hlt : QEMUVCPU._xpos v < len (QEMUVCPU._seq v)).
  { assert (H : (Z.to_nat (QEMUVCPU._xpos v)
                 < List.length (QEMUVCPU._seq v))%nat)
      by (apply nth_error_Some; rewrite Hn; discriminate).
    unfold len. lia. }
  replace (QEMUVCPU._xpos v <? len (QEMUVCPU._seq v)) with true
    by (symmetry; apply Z.ltb_lt; lia).
  destruct (ReplayProps.py_index_in (QEMUVCPU._seq v) (QEMUVCPU._xpos v))
    as (e' & Hn' & Hi); [lia|].
  rewrite Hn in Hn'. injection Hn' as <-.
  rewrite Hi. cbn [bind].
  destruct (BankProps.to_bytes_fits (fst e) (xlen s) Hpc) as [_ Hok].
  rewrite Hok. reflexivity.
Qed.

(** X19: with a hart selected, its cursor on a recorded instruction
    that another one follows, and the PCs of both within the address
    width: the [s] command moves the cursor of that hart forward by one
    and answers [T0520:] with the PC of the next instruction, in
    hexadecimal on [xlen] bytes, least significant first, and [;]; the
    [bs] command that follows answers the same with the PC of the
    instruction where [s] was issued and leaves the server exactly as
    it was before [s]. *)
Theorem step_then_back (s : t) (k : Z) (v : QEMUVCPU.t)
    (e0 e1 : Z * string)
    (Hsel : _thread_id s = Some k)
    (Hget : dict_get (_vcpus s) k = Some v)
    (Hx : 0 <= QEMUVCPU._xpos v)
    (Hcur : nth_error (QEMUVCPU._seq v) (Z.to_nat (QEMUVCPU._xpos v))
            = Some e0)
    (Hnext : nth_error (QEMUVCPU._seq v) (Z.to_nat (QEMUVCPU._xpos v + 1))
             = Some e1)
    (Hpc0 : 0 <= fst e0 < 256 ^ xlen s)
    (Hpc1 : 0 <= fst e1 < 256 ^ xlen s) :
  _do_s "" s
    = (Ok (Some ("T0520:" +++ hexlify (le_bytes (Z.to_nat (xlen s)) (fst e1))
                 +++ ";")),
       store_vcpu k (QEMUVCPU.set_xpos (QEMUVCPU._xpos v + 1) v) s)
  /\ _do_bs ""
       (store_vcpu k (QEMUVCPU.set_xpos (QEMUVCPU._xpos v + 1) v) s)
     = (Ok (Some ("T0520:" +++ hexlify (le_bytes (Z.to_nat (xlen s)) (fst e0))
                  +++ ";")),
        s).
Proof.
  set (v1 := QEMUVCPU.set_xpos (QEMUVCPU._xpos v + 1) v).
  set (s1 := store_vcpu k v1 s).
  assert (Hlen : QEMUVCPU._xpos v + 1 < len (QEMUVCPU._seq v)).
  { assert (H : (Z.to_nat (QEMUVCPU._xpos v + 1)
                 < List.length (QEMUVCPU._seq v))%nat)
      by (apply nth_error_Some; rewrite Hnext; discriminate).
    unfold len. lia. }
  assert (Hc : current_vcpu s = Ok (k, v))
    by (unfold current_vcpu; rewrite Hsel, Hget; reflexivity).
  assert (Hc1 : current_vcpu s1 = Ok (k, v1)).
  { unfold current_vcpu, s1, store_vcpu. cbn [_thread_id _vcpus set_vcpus].
    rewrite Hsel, SessionProps.dict_get_put_same. reflexivity. }
  assert (Hstep : QEMUVCPU.step false v = (Ok tt, v1)).
  { rewrite CursorProps.step_forward_eq.
    replace (len (QEMUVCPU._seq v) <=? QEMUVCPU._xpos v + 1) with false
      by (symmetry; apply Z.leb_gt; lia). reflexivity. }
  assert (Hback : QEMUVCPU.step true v1 = (Ok tt, v)).
  { rewrite CursorProps.step_backward_eq. subst v1.
    cbn [QEMUVCPU._xpos QEMUVCPU.set_xpos].
    replace (0 <? QEMUVCPU._xpos v + 1) with true
      by (symmetry; apply Z.ltb_lt; lia).
    replace (QEMUVCPU._xpos v + 1 - 1) with (QEMUVCPU._xpos v) by lia.
    destruct v; reflexivity. }
  assert (Hr1 : stop_reply s1 v1 ""
                = Ok ("T0520:"
                      +++ hexlify (le_bytes (Z.to_nat (xlen s)) (fst e1))
                      +++ ";")).
  { apply (stop_reply_inside s1 v1 e1);
      [subst v1; cbn; lia | exact Hnext | exact Hpc1]. }
  assert (Hr0 : stop_reply s v ""
                = Ok ("T0520:"
                      +++ hexlify (le_bytes (Z.to_nat (xlen s)) (fst e0))
                      +++ ";")).
  { apply (stop_reply_inside s v e0); assumption. }
  split.
  - unfold _do_s. rewrite Hc. cbn [String.eqb].
    unfold step_reply. rewrite Hstep. fold s1. rewrite Hr1. reflexivity.
  - fold v1. fold s1. unfold _do_bs. rewrite Hc1. unfold step_reply.
    rewrite Hback.
    unfold s1. rewrite (store_vcpu_back k v v1 s Hget), Hr0. reflexivity.
Qed.

(** The first scenario, followed by a step back. *)
Lemma step_then_back_witness :
  _do_s "" (snd (_do__h "g0" Spec.server))
    = (Ok (Some "T0520:02100000;"),
       store_vcpu 0 (Spec.vcpu_at 1 []) (snd (_do__h "g0" Spec.server)))
  /\ _do_bs ""
       (store_vcpu 0 (Spec.vcpu_at 1 []) (snd (_do__h "g0" Spec.server)))
     = (Ok (Some "T0520:00100000;"), snd (_do__h "g0" Spec.server)).
Proof.
  apply (step_then_back (snd (_do__h "g0" Spec.server)) 0
           (Spec.vcpu_at 0 []) (4096, "f") (4098, "f")).
  - reflexivity.
  - reflexivity.
  - vm_compute; discriminate.
  - reflexivity.
  - reflexivity.
  - vm_compute. split; [discriminate | reflexivity].
  - vm_compute. split; [discriminate | reflexivity].
Defined.

End ComposeProps.
